(** * Calendaria: the calendar arithmetic engine

    A shallow embedding of [Calendars.ts] (the namespace [Calendars]) and the
    properties of its conversion functions.

    Numbers.  The source computes on JavaScript numbers, that is on IEEE 754
    binary64 values.  Integer-valued computations (day counts, years, months)
    are embedded on [Z]: [Math.floor (a / b)] on integers is [Z.div a b], and
    binary64 arithmetic is exact on the integers the calendars handle.
    Computations with a fractional part whose operations come from outside
    the repository (Julian Day, molad, the astronomical layer) are embedded on
    [Q] with exact arithmetic; [Math.floor] is [Qfloor] and [Math.round x] is
    [Qfloor (x + 1/2)].  Where the result of a function on a date with a time
    of day depends on the rounding of binary64 arithmetic ([toArray], [_mod],
    [weekdayOnOrBefore], [getWeekday]), the function is also embedded on the
    primitive binary64 numbers, in the module [Float64].

    External code.  The ephemeris package (solar and lunar positions,
    equinoxes, equation of time) and the trigonometric functions of [Math]
    are not part of the repository; the functions that call them take them
    from a record [Ephemeris]. *)

From Stdlib Require Import ZArith QArith Qround Qabs Lia Lqa Bool List.
From Stdlib Require PrimFloat FloatOps SpecFloat Uint63.
Import ListNotations.
Open Scope Z_scope.

(** ** Numeric utilities *)

(** [_mod a b = a - b * Math.floor(a / b)] on integers. *)
Definition _mod (a b : Z) : Z := a - b * (a / b).

(** [_amod a b = b + _mod(a, -b)]. *)
Definition _amod (a b : Z) : Z := b + _mod a (- b).

(** [Math.round]: the nearest integer, ties towards plus infinity. *)
Definition Math_round (x : Q) : Z := Qfloor (x + (1 # 2)).

(** [ToNumber]: a [null] operand of an arithmetic operator counts as 0. *)
Definition ToNumber (x : option Q) : Q :=
  match x with
  | Some v => v
  | None => 0%Q
  end.

Definition Qltb (a b : Q) : bool := negb (Qle_bool b a).

(** The same utilities on numbers with a fractional part. *)
Module Real.

Definition _mod (a b : Q) : Q := (a - b * inject_Z (Qfloor (a / b)))%Q.

Definition _amod (a b : Q) : Q := (b + _mod a (- b))%Q.

End Real.

(** ** Weekdays *)

Inductive Weekday : Set :=
| Sunday | Monday | Tuesday | Wednesday | Thursday | Friday | Saturday.

Definition Weekday_num (k : Weekday) : Z :=
  match k with
  | Sunday => 0 | Monday => 1 | Tuesday => 2 | Wednesday => 3
  | Thursday => 4 | Friday => 5 | Saturday => 6
  end.

Coercion Weekday_num : Weekday >-> Z.

Definition weekdayOnOrBefore (date : Z) (k : Weekday) : Z :=
  date - _mod (date - k) 7.

Definition weekdayAfter (date : Z) (k : Weekday) : Z :=
  weekdayOnOrBefore (date + 7) k.

Definition nthWeekday (n : Z) (k : Weekday) (date : Z) : Z :=
  if 0 <? n then 7 * n + weekdayOnOrBefore (date - 1) k
  else 7 * n + weekdayAfter date k.

Definition getWeekday (date : Z) : Z := _mod date 7.

(** ** Fractional days *)

Record DateArray : Set := mkDate {
  dYear : Z; dMonth : Z; dDay : Z; dHour : Z; dMinute : Z; dSecond : Q }.

(** [toArray] in exact arithmetic.  The calendars call it on whole days,
    where the test [rday === day] succeeds and the result is
    [[year, month, day, 0, 0, 0]] without any rounding.  What the source
    returns on a day with a time of day is [Float64.toArray] below. *)
Definition toArray (year month : Z) (day : Q) : DateArray :=
  let rday := Qfloor day in
  if Qeq_bool (inject_Z rday) day then mkDate year month rday 0 0 0
  else
    let excess := (day - inject_Z rday)%Q in
    let elapsedHours := (excess * 24)%Q in
    let elapsedMinutes := (excess * 24 * 60)%Q in
    let elapsedSeconds := (excess * 24 * 60 * 60)%Q in
    let hour := Qfloor elapsedHours in
    let min := Qfloor (elapsedMinutes - inject_Z hour * 60) in
    let sec := (elapsedSeconds - inject_Z min * 60 - inject_Z hour * 60 * 60)%Q in
    let sec := (inject_Z (Math_round (sec * 1000)) / 1000)%Q in
    if Qfloor sec =? 60 then
      if min + 1 =? 60 then
        if hour + 1 =? 24 then mkDate year month (rday + 1) 0 0 0
        else mkDate year month rday (hour + 1) 0 0
      else mkDate year month rday hour (min + 1) 0
    else mkDate year month rday hour min sec.

(** ** The utilities on binary64 numbers

    The functions of the source that receive dates with a time of day, on
    the kernel's binary64 numbers: [+], [-], [*], [/] and the comparisons
    are those of IEEE 754 with rounding to nearest, ties to even, as in
    JavaScript. *)

Module Float64.
Import PrimFloat SpecFloat.
#[local] Open Scope Z_scope.

(** The number with the integer value [n], for [|n| <= 2^53]. *)
Definition ofZ (n : Z) : float :=
  if n <? 0 then opp (of_uint63 (Uint63.of_Z (- n)))
  else of_uint63 (Uint63.of_Z n).

(** [Math.floor].  A finite number other than zero is [m * 2^e] or
    [- m * 2^e] with [m] a positive integer; it is an integer already when
    [0 <= e], and the floor of [m / 2^(-e)] is taken on [Z] otherwise.
    Zeros, infinities and NaN are returned unchanged. *)
Definition Math_floor (x : float) : float :=
  match FloatOps.Prim2SF x with
  | S754_finite s m e =>
      if 0 <=? e then x
      else
        let q := Z.pos m / 2 ^ (- e) in
        let r := Z.pos m mod 2 ^ (- e) in
        if s then opp (ofZ (if r =? 0 then q else q + 1)) else ofZ q
  | _ => x
  end.

(** [Math.round]: the nearest integer, ties towards plus infinity, that is
    the floor of [x + 1/2] taken on [Z]; a negative [x] that rounds to zero
    gives [-0]. *)
Definition Math_round (x : float) : float :=
  match FloatOps.Prim2SF x with
  | S754_finite s m e =>
      if 0 <=? e then x
      else
        let num := if s then - (2 * Z.pos m) + 2 ^ (- e)
                   else 2 * Z.pos m + 2 ^ (- e) in
        let n := num / 2 ^ (- e + 1) in
        if s then opp (ofZ (- n)) else ofZ n
  | _ => x
  end.

Definition _mod (a b : float) : float := (a - b * Math_floor (a / b))%float.

Definition weekdayOnOrBefore (date : float) (k : Weekday) : float :=
  (date - _mod (date - ofZ k) 7)%float.

Definition weekdayAfter (date : float) (k : Weekday) : float :=
  weekdayOnOrBefore (date + 7)%float k.

Definition getWeekday (date : float) : float := _mod (Math_floor date) 7.

Record DateArray : Set := mkDate {
  dYear : float; dMonth : float; dDay : float;
  dHour : float; dMinute : float; dSecond : float }.

Definition toArray (year month day : float) : DateArray :=
  let rday := Math_floor day in
  if (rday =? day)%float then mkDate year month day 0 0 0
  else
    let excess := (day - rday)%float in
    let elapsedHours := (excess * 24)%float in
    let elapsedMinutes := (excess * 24 * 60)%float in
    let elapsedSeconds := (excess * 24 * 60 * 60)%float in
    let hour := Math_floor elapsedHours in
    let min := Math_floor (elapsedMinutes - hour * 60)%float in
    let sec := (elapsedSeconds - min * 60 - hour * 60 * 60)%float in
    let sec := (Math_round (sec * 1000) / 1000)%float in
    if (Math_floor sec =? 60)%float then
      if (min + 1 =? 60)%float then
        if (hour + 1 =? 24)%float then mkDate year month (rday + 1)%float 0 0 0
        else mkDate year month rday (hour + 1)%float 0 0
      else mkDate year month rday hour (min + 1)%float 0
    else mkDate year month rday hour min sec.

End Float64.

(** ** Julian Day Number *)

Module JD.
Definition EPOCH : Q := - (3442849 # 2).
Definition fromFixed (date : Q) : Q := (date - EPOCH)%Q.
Definition toFixed (jd : Q) : Q := (jd + EPOCH)%Q.
End JD.

Module MJD.
Definition MODIFIED_JULIAN_ADJUSTMENT : Q := 4800001 # 2.
Definition EPOCH : Q := 678576.
Definition fromJD (jd : Q) : Q := (jd - MODIFIED_JULIAN_ADJUSTMENT)%Q.
Definition fromFixed (date : Q) : Q := (date - EPOCH)%Q.
Definition toFixed (mjd : Q) : Q := (mjd + EPOCH)%Q.
End MJD.

(** ** Egyptian and Armenian calendars *)

Module Egyptian.

Definition EPOCH : Z := -272787.

Definition toFixed (year month day : Z) : Z :=
  EPOCH + 365 * (year - 1) + 30 * (month - 1) + day - 1.

Definition fromFixed (date : Z) : DateArray :=
  let days := date - EPOCH in
  let year := days / 365 + 1 in
  let month := _mod days 365 / 30 + 1 in
  let day := days - 365 * (year - 1) - 30 * (month - 1) + 1 in
  toArray year month (inject_Z day).

End Egyptian.

Module Armenian.

Definition EPOCH : Z := 201443.

Definition toFixed (year month day : Z) : Z :=
  EPOCH + Egyptian.toFixed year month day - Egyptian.EPOCH.

Definition fromFixed (date : Z) : DateArray :=
  Egyptian.fromFixed (date + Egyptian.EPOCH - EPOCH).

End Armenian.

(** ** Gregorian calendar *)

Module Gregorian.

Definition isLeapYear (year : Z) : bool :=
  (_mod year 400 =? 0) || ((_mod year 4 =? 0) && negb (_mod year 100 =? 0)).

Definition toFixed (year month day : Z) : Z :=
  let correction :=
    if 2 <? month then (if isLeapYear year then -1 else -2) else 0 in
  365 * (year - 1) + (year - 1) / 4
    - (year - 1) / 100 + (year - 1) / 400
    + (367 * month - 362) / 12 + correction + day.

Definition yearFromFixed (date : Z) : Z :=
  let d0 := date - 1 in
  let c1 := 146097 in
  let c2 := 36524 in
  let c3 := 1461 in
  let n400 := d0 / c1 in
  let d1 := _mod d0 c1 in
  let n100 := d1 / c2 in
  let d2 := _mod d1 c2 in
  let n4 := d2 / c3 in
  let d3 := _mod d2 c3 in
  let n1 := d3 / 365 in
  let year := 400 * n400 + 100 * n100 + 4 * n4 + n1 in
  if (n100 =? 4) || (n1 =? 4) then year else year + 1.

Definition fromFixed (date : Z) : DateArray :=
  let year := yearFromFixed date in
  let priorDays := date - toFixed year 1 1 in
  let corr :=
    if date <? toFixed year 3 1 then 0
    else if isLeapYear year then 1 else 2 in
  let month := (12 * (priorDays + corr) + 373) / 367 in
  let day := date - toFixed year month 1 + 1 in
  toArray year month (inject_Z day).

End Gregorian.

(** ** Julian calendar *)

Module Julian.

Definition isLeapYear (year : Z) : bool :=
  let f := if 0 <? year then 0 else 3 in
  _mod year 4 =? f.

Definition EPOCH : Z := -1.

Definition toFixed (year month day : Z) : Z :=
  let y := if year <? 0 then year else year - 1 in
  let c :=
    if month <=? 2 then 0
    else if isLeapYear year then -1 else -2 in
  EPOCH - 1 + 365 * y + y / 4 + (367 * month - 362) / 12 + c + day.

Definition fromFixed (date : Z) : DateArray :=
  let approx := (4 * (date - EPOCH) + 1464) / 1461 in
  let year := if 0 <? approx then approx else approx - 1 in
  let priorDays := date - toFixed year 1 1 in
  let corr :=
    if date <? toFixed year 3 1 then 0
    else if isLeapYear year then 1 else 2 in
  let month := (12 * (priorDays + corr) + 373) / 367 in
  let day := date - toFixed year month 1 + 1 in
  toArray year month (inject_Z day).

End Julian.

(** ** Roman calendar *)

Module Roman.

Inductive RomanEvent : Set := Kalends | Nones | Ides.

Definition RomanEvent_eqb (a b : RomanEvent) : bool :=
  match a, b with
  | Kalends, Kalends | Nones, Nones | Ides, Ides => true
  | _, _ => false
  end.

Definition ides (month : Z) : Z :=
  if existsb (Z.eqb month) [3; 5; 7; 10] then 15 else 13.

Definition nones (month : Z) : Z := ides month - 8.

Definition toFixed (year month : Z) (event : RomanEvent) (count : Z)
    (leap : bool) : Z :=
  let d :=
    if RomanEvent_eqb event Nones then nones month
    else if RomanEvent_eqb event Ides then ides month
    else 1 in
  let f :=
    if Julian.isLeapYear year
       && (month =? 3)
       && RomanEvent_eqb event Kalends
       && (6 <=? count)
       && (count <=? 16)
    then 0 else 1 in
  let L := if leap then 1 else 0 in
  Julian.toFixed year month d - count + f + L.

Record RomanDate : Set := mkRoman {
  rYear : Z; rMonth : Z; rEvent : RomanEvent; rCount : Z; rLeap : bool }.

Definition fromFixed (date : Z) : RomanDate :=
  let j := Julian.fromFixed date in
  let year := dYear j in
  let month := dMonth j in
  let day := dDay j in
  if day =? 1 then mkRoman year month Kalends 1 false
  else if day <=? nones month then
    mkRoman year month Nones (nones month - day + 1) false
  else if day <=? ides month then
    mkRoman year month Ides (ides month - day + 1) false
  else if negb (month =? 2) || negb (Julian.isLeapYear year) then
    let month2 := _amod (month + 1) 12 in
    let year2 :=
      if negb (month2 =? 1) then year
      else if (month2 =? 1) && negb (year =? -1) then year + 1
      else 1 in
    let kalends1 := toFixed year2 month2 Kalends 1 false in
    mkRoman year2 month2 Kalends (kalends1 - date + 1) false
  else if day <? 25 then mkRoman year 3 Kalends (30 - day) false
  else mkRoman year 3 Kalends (31 - day) (day =? 25).

End Roman.

(** ** Easter *)

Module Easter.

Definition Gregorian (year : Z) : Z :=
  let c := year / 100 + 1 in
  let shiftedEpact :=
    _mod (14 + 11 * _mod year 19 - (3 * c) / 4 + (5 + 8 * c) / 25) 30 in
  let adjustedEpact :=
    if (shiftedEpact =? 0) || ((shiftedEpact =? 1) && (10 <? _mod year 19))
    then shiftedEpact + 1 else shiftedEpact in
  let paschalMoon := Gregorian.toFixed year 4 19 - adjustedEpact in
  weekdayAfter paschalMoon Sunday.

Definition Orthodox (year : Z) : Z :=
  let paschalMoon :=
    354 * year + 30 * ((7 * year + 8) / 19) + year / 4 - year / 19 - 272 in
  weekdayAfter paschalMoon Sunday.

End Easter.

(** ** Coptic and Ethiopic calendars *)

Module Coptic.

Definition EPOCH : Z := 103605.

Definition isLeapYear (year : Z) : bool := _mod year 4 =? 3.

Definition toFixed (year month day : Z) : Z :=
  EPOCH - 1 + 365 * (year - 1) + year / 4 + 30 * (month - 1) + day.

Definition fromFixed (date : Z) : DateArray :=
  let year := (4 * (date - EPOCH) + 1463) / 1461 in
  let month := (date - toFixed year 1 1) / 30 + 1 in
  let day := date + 1 - toFixed year month 1 in
  toArray year month (inject_Z day).

End Coptic.

Module Ethiopic.

Definition EPOCH : Z := 2796.

Definition toFixed (year month day : Z) : Z :=
  EPOCH + Coptic.toFixed year month day - Coptic.EPOCH.

Definition fromFixed (date : Z) : DateArray :=
  Coptic.fromFixed (date + Coptic.EPOCH - EPOCH).

End Ethiopic.

(** ** ISO week calendar *)

Module ISO.

Definition toFixed (year week day : Z) : Z :=
  nthWeekday week Sunday (Gregorian.toFixed (year - 1) 12 28) + day.

Definition fromFixed (date : Z) : DateArray :=
  let approx := Gregorian.yearFromFixed (date - 3) in
  let year := if toFixed (approx + 1) 1 1 <=? date then approx + 1 else approx in
  let week := (date - toFixed year 1 1) / 7 + 1 in
  let day := _amod date 7 in
  toArray year week (inject_Z day).

End ISO.

(** ** Islamic calendar (tabular) *)

Module Islamic.

Definition EPOCH : Z := 227015.

Definition isLeapYear (year : Z) : bool := _mod (14 + 11 * year) 30 <? 11.

Definition toFixed (year month day : Z) : Z :=
  day + 29 * (month - 1) + (6 * month - 1) / 11 +
  354 * (year - 1) + (3 + 11 * year) / 30 + EPOCH - 1.

Definition fromFixed (date : Z) : DateArray :=
  let year := (30 * (date - EPOCH) + 10646) / 10631 in
  let priorDays := date - toFixed year 1 1 in
  let month := (11 * priorDays + 330) / 325 in
  let day := date - toFixed year month 1 + 1 in
  toArray year month (inject_Z day).

End Islamic.

(** ** Hebrew calendar *)

(** [for (let m = from; m < from + n; m++) sum += f(m)]. *)
Fixpoint sumLoop (f : Z -> Z) (n : nat) (m sum : Z) : Z :=
  match n with
  | O => sum
  | S n' => sumLoop f n' (m + 1) (sum + f m)
  end.

Module Hebrew.

Definition EPOCH : Z := -1373427.
Definition TISHRI : Z := 7.

Definition isLeapYear (year : Z) : bool := _mod (7 * year + 1) 19 <? 7.

Definition molad (year month : Z) : Q :=
  let y := if month <? TISHRI then year + 1 else year in
  let monthsElapsed := month - TISHRI + (235 * y - 234) / 19 in
  (inject_Z EPOCH - (876 # 25920)
   + inject_Z monthsElapsed * ((59 # 2) + (793 # 25920)))%Q.

Definition elapsedDays (year : Z) : Z :=
  let d := Qfloor (molad year TISHRI - inject_Z EPOCH + (1 # 2)) in
  if _mod (3 * (d + 1)) 7 <? 3 then d + 1 else d.

Definition newYearDelay (year : Z) : Z :=
  let ny0 := elapsedDays (year - 1) in
  let ny1 := elapsedDays year in
  let ny2 := elapsedDays (year + 1) in
  if ny2 - ny1 =? 356 then 2
  else if ny1 - ny0 =? 382 then 1
  else 0.

Definition newYear (year : Z) : Z :=
  EPOCH + elapsedDays year + newYearDelay year.

Definition daysInYear (year : Z) : Z := newYear (year + 1) - newYear year.

Definition isLongMarheshvan (year : Z) : bool :=
  let d := daysInYear year in (d =? 355) || (d =? 385).

Definition isShortKislev (year : Z) : bool :=
  let d := daysInYear year in (d =? 353) || (d =? 383).

Definition lastDayOfMonth (year month : Z) : Z :=
  if existsb (Z.eqb month) [2; 4; 6; 10; 13]
     || ((month =? 12) && negb (isLeapYear year))
     || ((month =? 8) && negb (isLongMarheshvan year))
     || ((month =? 9) && isShortKislev year)
  then 29 else 30.

Definition toFixed (year month day : Z) : Z :=
  let lastMonth := if isLeapYear year then 13 else 12 in
  let sum :=
    if month <? TISHRI then
      let sum := sumLoop (lastDayOfMonth year) (Z.to_nat (month - 1)) 1 0 in
      sumLoop (lastDayOfMonth year) (Z.to_nat (lastMonth + 1 - TISHRI)) TISHRI sum
    else
      sumLoop (lastDayOfMonth year) (Z.to_nat (month - TISHRI)) TISHRI 0 in
  newYear year + day - 1 + sum.

(** [for (;;) { if (newYear(year) > date) { year--; break }; year++ }];
    [None] when the fuel runs out before the loop breaks. *)
Fixpoint yearLoop (fuel : nat) (year date : Z) : option Z :=
  match fuel with
  | O => None
  | S fuel' =>
      if date <? newYear year then Some (year - 1)
      else yearLoop fuel' (year + 1) date
  end.

(** [for (let k = 0; k < 13; k++) { month = startMonth + k; if (...) break }];
    [month] is the value the variable holds when the loop is left. *)
Fixpoint monthLoop (n : nat) (year date startMonth k month : Z) : Z :=
  match n with
  | O => month
  | S n' =>
      let month := startMonth + k in
      if date <=? toFixed year month (lastDayOfMonth year month) then month
      else monthLoop n' year date startMonth (k + 1) month
  end.

Definition fromFixed (fuel : nat) (date : Z) : option DateArray :=
  let approx := ((date - EPOCH) * 98496) / 35975351 + 1 in
  match yearLoop fuel (approx - 1) date with
  | None => None
  | Some year =>
      let startMonth := if date <? toFixed year 1 1 then TISHRI else 1 in
      let month := monthLoop 13 year date startMonth 0 startMonth in
      let day := date - toFixed year month 1 + 1 in
      Some (toArray year month (inject_Z day))
  end.

End Hebrew.

(** ** The external ephemeris and [Math] *)

Record Locality : Set := mkLocality {
  latitude : Q; longitude : Q; elevation : option Q; zone : Q }.

Record Ephemeris : Type := mkEphemeris {
  Math_tan : Q -> Q;
  Math_sin : Q -> Q;
  Math_cos : Q -> Q;
  Math_asin : Q -> Q;
  Math_acos : Q -> Q;
  (** [astro.JDEToBesselianYear], [astro.J2000Century], [deltat.deltaT] *)
  JDEToBesselianYear : Q -> Q;
  J2000Century : Q -> Q;
  deltaT : Q -> Q;
  (** [eqtime.e(jde, EARTH)] *)
  eqtime_e : Q -> Q;
  (** [solstice.march], [solstice.september] *)
  solstice_march : Z -> Q;
  solstice_september : Z -> Q;
  (** [solar.apparentEquatorial(jde).dec] *)
  solar_apparentEquatorial_dec : Q -> Q;
  (** [solar.trueLongitude(T).lon], [solar.true2000(T).lon] *)
  solar_trueLongitude_lon : Q -> Q;
  solar_true2000_lon : Q -> Q;
  (** [moonposition.position(jde)], fields [lon] and [lat] *)
  moonposition_lon : Q -> Q;
  moonposition_lat : Q -> Q;
  (** [nutation.meanObliquityLaskar], [sidereal.apparent] *)
  meanObliquityLaskar : Q -> Q;
  sidereal_apparent : Q -> Q;
  (** [new coord.Ecliptic(lon, lat).toEquatorial(eps)
        .toHorizontal(new globe.Coord(phi, psi), st).alt] *)
  horizontal_alt : Q -> Q -> Q -> Q -> Q -> Q -> Q;
  (** [moonphase.meanLunarMonth] *)
  meanLunarMonth : Q
}.

(** [Math.PI], the double nearest to pi. *)
Definition PI : Q := 884279719003555 # 281474976710656.
Definition D2R : Q := (PI / 180)%Q.

Definition SECONDS_PER_DAY : Q := 86400.

(** ** Time frames *)

Module Time.

Definition universalFromLocal (t : Q) (locale : Locality) : Q :=
  (t - longitude locale / 360)%Q.

Definition localFromUniversal (t : Q) (locale : Locality) : Q :=
  (t + longitude locale / 360)%Q.

Definition standardFromUniversal (t : Q) (locale : Locality) : Q :=
  (t + zone locale / 24)%Q.

Definition universalFromStandard (t : Q) (locale : Locality) : Q :=
  (t - zone locale / 24)%Q.

Definition standardFromLocal (t : Q) (locale : Locality) : Q :=
  standardFromUniversal (universalFromLocal t locale) locale.

Definition localFromStandard (t : Q) (locale : Locality) : Q :=
  localFromUniversal (universalFromStandard t locale) locale.

Definition dynamicalFromUniversal (eph : Ephemeris) (t : Q) : Q :=
  let dyear := JDEToBesselianYear eph (JD.fromFixed t) in
  (t + deltaT eph dyear / SECONDS_PER_DAY)%Q.

Definition universalFromDynamical (eph : Ephemeris) (t : Q) : Q :=
  let dyear := JDEToBesselianYear eph (JD.fromFixed t) in
  (t - deltaT eph dyear / SECONDS_PER_DAY)%Q.

Definition apparentFromLocal (eph : Ephemeris) (t : Q) : Q :=
  (t + eqtime_e eph (JD.fromFixed t) / (2 * PI))%Q.

Definition localFromApparent (eph : Ephemeris) (t : Q) : Q :=
  (t - eqtime_e eph (JD.fromFixed t) / (2 * PI))%Q.

Definition midnight (eph : Ephemeris) (date : Q) (locale : Locality) : Q :=
  standardFromLocal (localFromApparent eph (inject_Z (Qfloor date))) locale.

Definition midday (eph : Ephemeris) (date : Q) (locale : Locality) : Q :=
  standardFromLocal
    (localFromApparent eph (inject_Z (Qfloor date) + (1 # 2))%Q) locale.

End Time.

(** ** Equinoxes, dawn and dusk *)

Definition _vernalEquinoxOnOrBefore (eph : Ephemeris) (date : Z) : Q :=
  let year := Gregorian.yearFromFixed date in
  let spring := JD.toFixed (solstice_march eph year) in
  if Qltb (inject_Z date) spring
  then JD.toFixed (solstice_march eph (year - 1))
  else spring.

Definition _autumnalEquinoxOnOrBefore (eph : Ephemeris) (date : Z) : Q :=
  let year := Gregorian.yearFromFixed date in
  let autumn := JD.toFixed (solstice_september eph year) in
  if Qltb (inject_Z date) autumn
  then JD.toFixed (solstice_september eph (year - 1))
  else autumn.

(** The value of the local [sineOffset] of [momentFromDepression]. *)
Definition sineOffset (eph : Ephemeris) (approx : Q) (locale : Locality)
    (angle : Q) : Q :=
  let t := Time.universalFromLocal approx locale in
  let delta := solar_apparentEquatorial_dec eph (JD.fromFixed t) in
  (Math_tan eph (latitude locale * D2R) * Math_tan eph delta
   + Math_sin eph (angle * D2R)
     / (Math_cos eph delta * Math_cos eph (latitude locale * D2R)))%Q.

Definition momentFromDepression (eph : Ephemeris) (approx : Q)
    (locale : Locality) (angle : Q) : option Q :=
  let morning := if Qltb (Real._mod approx 1) (1 # 2) then (- (1))%Q else 1%Q in
  let sineOffset := sineOffset eph approx locale angle in
  if Qltb 1 (Qabs sineOffset) then None
  else
    Some (Time.localFromApparent eph
            (inject_Z (Qfloor approx) + (1 # 2)
             + morning
               * (Real._mod ((1 # 2) + Math_asin eph sineOffset / (2 * PI)) 1
                  - (1 # 4)))%Q).

Definition dawn (eph : Ephemeris) (date : Q) (locale : Locality) (angle : Q)
    : option Q :=
  let approx := momentFromDepression eph (date + (1 # 4))%Q locale angle in
  let x := match approx with None => date | Some a => a end in
  match momentFromDepression eph x locale angle with
  | None => None
  | Some result => Some (Time.standardFromLocal result locale)
  end.

Definition dusk (eph : Ephemeris) (date : Q) (locale : Locality) (angle : Q)
    : option Q :=
  let approx := momentFromDepression eph (date + (3 # 4))%Q locale angle in
  let x := match approx with None => (date + (99 # 100))%Q | Some a => a end in
  match momentFromDepression eph x locale angle with
  | None => None
  | Some result => Some (Time.standardFromLocal result locale)
  end.

(** ** Crescent visibility *)

Module Astronomy.

Definition MEAN_TROPICAL_YEAR : Q := 365242189 # 1000000.

Definition MEAN_SYNODIC_MONTH (eph : Ephemeris) : Q := meanLunarMonth eph.

(** The instant, as a Julian Day, at which [isCrescentVisible] evaluates
    the positions: [dusk] may be [null], and [null - zone / 24] is
    [0 - zone / 24]. *)
Definition crescentInstant (eph : Ephemeris) (date : Q) (locale : Locality)
    : Q :=
  let t :=
    Time.universalFromStandard
      (ToNumber (dusk eph (date - 1)%Q locale (9 # 2))) locale in
  JD.fromFixed t.

(** The criteria of [isCrescentVisible] from the Julian Day [jde] on. *)
Definition crescentCriteria (eph : Ephemeris) (jde : Q) (locale : Locality)
    : bool :=
  let lunarPos_lon := moonposition_lon eph jde in
  let lunarPos_lat := moonposition_lat eph jde in
  let solarPos_lon := solar_trueLongitude_lon eph (J2000Century eph jde) in
  let phase := Real._mod (lunarPos_lon - solarPos_lon)%Q (2 * PI)%Q in
  let eps := meanObliquityLaskar eph jde in
  let st := sidereal_apparent eph jde in
  let lunarAltitude :=
    horizontal_alt eph lunarPos_lon lunarPos_lat eps
      (latitude locale * D2R)%Q (- longitude locale * D2R)%Q st in
  let arcOfLight :=
    Math_acos eph (Math_cos eph lunarPos_lat * Math_cos eph phase)%Q in
  Qltb 0 phase && Qltb phase (90 * D2R)%Q
  && Qle_bool ((106 # 10) * D2R)%Q arcOfLight
  && Qle_bool arcOfLight (90 * D2R)%Q
  && Qltb ((41 # 10) * D2R)%Q lunarAltitude.

Definition isCrescentVisible (eph : Ephemeris) (date : Q) (locale : Locality)
    : bool :=
  crescentCriteria eph (crescentInstant eph date locale) locale.

(** [for (let i = 0; i < 30; i++) { crescent = tau + i; if (...) break }]. *)
Fixpoint phasisLoop (visible : Q -> bool) (n : nat) (tau : Q) (i : Z)
    (crescent : Q) : Q :=
  match n with
  | O => crescent
  | S n' =>
      let crescent := (tau + inject_Z i)%Q in
      if visible crescent then crescent
      else phasisLoop visible n' tau (i + 1) crescent
  end.

(** The start [tau] of the scan of [phasisOnOrBefore]. *)
Definition phasisStart (eph : Ephemeris) (date : Q) (locale : Locality) : Q :=
  let jde := JD.fromFixed (date + 1)%Q in
  let lunarPos_lon := moonposition_lon eph jde in
  let solarPos_lon := solar_true2000_lon eph (J2000Century eph jde) in
  let phase :=
    (Real._mod (lunarPos_lon - solarPos_lon)%Q (2 * PI)%Q / (2 * PI))%Q in
  let mean :=
    (date - inject_Z (Qfloor (MEAN_SYNODIC_MONTH eph * phase)))%Q in
  if Qle_bool (date - mean)%Q 3 && negb (isCrescentVisible eph date locale)
  then (mean - 30)%Q else (mean - 2)%Q.

Definition phasisOnOrBefore (eph : Ephemeris) (date : Q) (locale : Locality)
    : Q :=
  let tau := phasisStart eph date locale in
  phasisLoop (fun d => isCrescentVisible eph d locale) 30 tau 0 tau.

End Astronomy.

(** ** Observational Islamic calendar *)

Module ObservationalIslamic.

Definition CAIRO : Locality :=
  mkLocality (301 # 10) (313 # 10) (Some 200%Q) 2.

Definition toFixed (eph : Ephemeris) (year month day : Z)
    (locale : option Locality) : Q :=
  let locale := match locale with None => CAIRO | Some l => l end in
  let midMonth :=
    Islamic.EPOCH
    + Qfloor ((inject_Z (12 * (year - 1) + month) - (1 # 2))
              * Astronomy.MEAN_SYNODIC_MONTH eph) in
  (Astronomy.phasisOnOrBefore eph (inject_Z midMonth) locale
   + inject_Z day - 1)%Q.

End ObservationalIslamic.

(** ** Persian calendar *)

Module Persian.

Definition EPOCH : Z := 226896.

Definition TEHRAN : Locality :=
  mkLocality (3568 # 100) (5142 # 100) (Some 1100%Q) (35 # 10).

Definition middayInTehran (eph : Ephemeris) (date : Q) : Q :=
  Time.universalFromStandard (Time.midday eph date TEHRAN) TEHRAN.

Definition newYearOnOrBefore (eph : Ephemeris) (date : Z) : Z :=
  let previousEquinox := _vernalEquinoxOnOrBefore eph (date + 1) in
  if Qltb previousEquinox (middayInTehran eph previousEquinox)
  then Qfloor previousEquinox
  else Qfloor previousEquinox + 1.

Definition toFixed (eph : Ephemeris) (year month day : Z) : Z :=
  let _y := if 0 <? year then year - 1 else year in
  let newYear :=
    newYearOnOrBefore eph
      (EPOCH + 180 + Qfloor (Astronomy.MEAN_TROPICAL_YEAR * inject_Z _y)) in
  let _m := if 7 <? month then 30 * (month - 1) + 6 else 31 * (month - 1) in
  newYear - 1 + _m + day.

Definition fromFixed (eph : Ephemeris) (date : Z) : DateArray :=
  let newYear := newYearOnOrBefore eph date in
  let y :=
    Math_round (inject_Z (newYear - EPOCH) / Astronomy.MEAN_TROPICAL_YEAR)
    + 1 in
  let year := if 0 <? y then y else y - 1 in
  let dayOfYear := date - toFixed eph year 1 1 + 1 in
  if dayOfYear =? 1 then toArray year 1 (inject_Z dayOfYear)
  else
    let month :=
      if 186 <? dayOfYear then Qceiling (inject_Z (dayOfYear - 6) / 30)
      else Qceiling (inject_Z dayOfYear / 31) in
    let day := date - toFixed eph year month 1 + 1 in
    toArray year month (inject_Z day).

Definition isLeapYear (eph : Ephemeris) (year : Z) : bool :=
  toFixed eph (year + 1) 1 1 - toFixed eph year 1 1 =? 366.

End Persian.

(** ** French Revolutionary calendar *)

Module French.

Definition EPOCH : Z := 654415.

Definition PARIS : Locality :=
  mkLocality (48 + (50 # 60) + (11 # 3600))%Q (2 + (20 # 60) + (14 # 3600))%Q
    (Some 27%Q) 1.

Definition midnightInParis (eph : Ephemeris) (date : Q) : Q :=
  Time.universalFromStandard (Time.midnight eph (date + 1)%Q PARIS) PARIS.

Definition newYearOnOrBefore (eph : Ephemeris) (date : Z) : Z :=
  let previousEquinox := _autumnalEquinoxOnOrBefore eph (date + 1) in
  if Qltb previousEquinox (midnightInParis eph previousEquinox)
  then Qfloor previousEquinox
  else Qfloor previousEquinox + 1.

Definition toFixed (eph : Ephemeris) (year month day : Z) : Z :=
  let newYear :=
    newYearOnOrBefore eph
      (Qfloor (inject_Z (EPOCH + 180)
               + Astronomy.MEAN_TROPICAL_YEAR * inject_Z (year - 1))) in
  newYear - 1 + 30 * (month - 1) + day.

Definition fromFixed (eph : Ephemeris) (date : Z) : DateArray :=
  let newYear := newYearOnOrBefore eph date in
  let year :=
    Math_round (inject_Z (newYear - EPOCH) / Astronomy.MEAN_TROPICAL_YEAR)
    + 1 in
  let month := (date - newYear) / 30 + 1 in
  let day := _mod (date - newYear) 30 + 1 in
  toArray year month (inject_Z day).

Definition isLeapYear (eph : Ephemeris) (year : Z) : bool :=
  toFixed eph (year + 1) 1 1 - toFixed eph year 1 1 =? 366.

(** Modified French Revolutionary calendar (arithmetical). *)
Module Modified.

Definition isLeapYear (year : Z) : bool :=
  (_mod year 4 =? 0)
  && negb (existsb (Z.eqb (_mod year 400)) [100; 200; 300])
  && negb (_mod year 4000 =? 0).

Definition toFixed (year month day : Z) : Z :=
  EPOCH - 1 + 365 * (year - 1)
  + (year - 1) / 4
  - (year - 1) / 100
  + (year - 1) / 400
  - (year - 1) / 4000
  + 30 * (month - 1) + day.

Definition fromFixed (date : Z) : DateArray :=
  let year := (4000 * (date - EPOCH + 2)) / 1460969 + 1 in
  let year := if date <? toFixed year 1 1 then year - 1 else year in
  let month := (date - toFixed year 1 1) / 30 + 1 in
  let day := date - toFixed year month 1 + 1 in
  toArray year month (inject_Z day).

End Modified.

End French.

(** ** Mayan calendars *)

Module Mayan.

Module LongCount.

Definition EPOCH : Z := -1137142.

Definition toFixed (baktun katun tun uinal kin : Z) : Z :=
  EPOCH + baktun * 144000 + katun * 7200 + tun * 360 + uinal * 20 + kin.

Definition fromFixed (date : Z) : Z * Z * Z * Z * Z :=
  let longCount := date - EPOCH in
  let baktun := longCount / 144000 in
  let dayOfBaktun := _mod longCount 144000 in
  let katun := dayOfBaktun / 7200 in
  let dayOfKatun := _mod dayOfBaktun 7200 in
  let tun := dayOfKatun / 360 in
  let dayOfTun := _mod dayOfKatun 360 in
  let uinal := dayOfTun / 20 in
  let kin := _mod dayOfTun 20 in
  (baktun, katun, tun, uinal, kin).

End LongCount.

Module Haab.

Definition ordinal (month day : Z) : Z := (month - 1) * 20 + day.

Definition EPOCH : Z := LongCount.EPOCH - ordinal 18 8.

Definition fromFixed (date : Z) : Z * Z :=
  let count := _mod (date - EPOCH) 365 in
  let day := _mod count 20 in
  let month := count / 20 + 1 in
  (month, day).

Definition onOrBefore (haabMonth haabDay date : Z) : Z :=
  date - _mod (date - EPOCH - ordinal haabMonth haabDay) 365.

End Haab.

Module Tzolkin.

Definition ordinal (number name : Z) : Z :=
  _mod (number - 1 + 39 * (number - name)) 260.

Definition EPOCH : Z := LongCount.EPOCH - ordinal 4 20.

Definition fromFixed (date : Z) : Z * Z :=
  let count := date - EPOCH + 1 in
  let number := _amod count 13 in
  let name := _amod count 20 in
  (number, name).

Definition onOrBefore (tzolkinNumber tzolkinName date : Z) : Z :=
  date - _mod (date - EPOCH - ordinal tzolkinNumber tzolkinName) 260.

End Tzolkin.

Definition roundOnOrBefore
    (haabMonth haabDay tzolkinNumber tzolkinName date : Z) : option Z :=
  let haabCount := Haab.ordinal haabMonth haabDay + LongCount.EPOCH in
  let tzolkinCount :=
    Tzolkin.ordinal tzolkinNumber tzolkinName + LongCount.EPOCH in
  let diff := tzolkinCount - haabCount in
  if _mod diff 5 =? 0
  then Some (date - _mod (date - haabCount - 365 * diff) 18980)
  else None.

End Mayan.

(** ** Notions used in the statements *)

(** [toFixed] applied to the year, month and day of a [DateArray]. *)
Definition applyDate (toFixed : Z -> Z -> Z -> Z) (a : DateArray) : Z :=
  toFixed (dYear a) (dMonth a) (dDay a).

(** [Roman.toFixed] applied to the five components of a [RomanDate]. *)
Definition applyRoman (r : Roman.RomanDate) : Z :=
  Roman.toFixed (Roman.rYear r) (Roman.rMonth r) (Roman.rEvent r)
    (Roman.rCount r) (Roman.rLeap r).

(** The Hebrew new year in integer arithmetic: the months elapsed before
    Tishri of a year, the day of its molad, the day after the weekday
    adjustment of [elapsedDays], and the delay of [newYearDelay]. *)
Definition monthsElapsed (y : Z) : Z := (235 * y - 234) / 19.

Definition dayOfMonths (m : Z) : Z := 29 * m + (13753 * m + 12084) / 25920.

Definition elapsedOfDay (d : Z) : Z :=
  if _mod (3 * (d + 1)) 7 <? 3 then d + 1 else d.

Definition delayOf (e0 e1 e2 : Z) : Z :=
  if e2 - e1 =? 356 then 2 else if e1 - e0 =? 382 then 1 else 0.

Definition lengthOK (l : Z) : Prop :=
  l = 353 \/ l = 354 \/ l = 355 \/ l = 383 \/ l = 384 \/ l = 385.

(** Iterations that suffice for the year search of [Hebrew.fromFixed]. *)
Definition Hebrew_fuel (d : Z) : nat :=
  let approx := ((d - Hebrew.EPOCH) * 98496) / 35975351 + 1 in
  S (Z.to_nat (d - Hebrew.newYear (approx - 1) + 1)).

(** A stand-in for the external package, on which the definitions can be
    evaluated: low-order Taylor polynomials for the functions of [Math], a
    sun whose declination grows by half a radian a day from 0.3 rad at RD 0,
    equinoxes at 8 h on 20 March and 22 September, a moon half a radian
    ahead of the sun and a fifth of a radian above the horizon. *)
Definition sampleEphemeris : Ephemeris := {|
  Math_tan := fun x => (x + x * x * x / 3)%Q;
  Math_sin := fun x => (x - x * x * x / 6)%Q;
  Math_cos := fun x => (1 - x * x / 2)%Q;
  Math_asin := fun x => (x + x * x * x / 6)%Q;
  Math_acos := fun x => (PI / 2 - (x + x * x * x / 6))%Q;
  JDEToBesselianYear := fun jde => (2000 + (jde - 2451545) / (36525 # 100))%Q;
  J2000Century := fun jde => ((jde - 2451545) / 36525)%Q;
  deltaT := fun _ => 69%Q;
  eqtime_e := fun _ => 0%Q;
  solstice_march := fun year =>
    JD.fromFixed (inject_Z (Gregorian.toFixed year 3 20) + (1 # 3))%Q;
  solstice_september := fun year =>
    JD.fromFixed (inject_Z (Gregorian.toFixed year 9 22) + (1 # 3))%Q;
  solar_apparentEquatorial_dec := fun jde =>
    ((3 # 10) + (1 # 2) * JD.toFixed jde)%Q;
  solar_trueLongitude_lon := fun _ => 0%Q;
  solar_true2000_lon := fun _ => 0%Q;
  moonposition_lon := fun _ => (1 # 2)%Q;
  moonposition_lat := fun _ => 0%Q;
  meanObliquityLaskar := fun _ => (409 # 1000)%Q;
  sidereal_apparent := fun _ => 0%Q;
  horizontal_alt := fun _ _ _ _ _ _ => (1 # 5)%Q;
  meanLunarMonth := (29530588861 # 1000000000)%Q
|}.

(** A locality at latitude 70 degrees north. *)
Definition polar : Locality := mkLocality 70 0 (Some 0%Q) 0.

(** The assumption on the external [solstice.september] under which the
    French calendar is considered: the September equinox of a Gregorian
    year falls in September or October of that year. *)
Definition septemberEquinoxInAutumn (eph : Ephemeris) : Prop :=
  forall g,
    (inject_Z (Gregorian.toFixed g 9 1)
       <= JD.toFixed (solstice_september eph g)
     /\ JD.toFixed (solstice_september eph g)
       < inject_Z (Gregorian.toFixed g 11 1))%Q.

(** The new year that [French.newYearOnOrBefore] derives from an equinox. *)
Definition French_newYearOf (eph : Ephemeris) (equinox : Q) : Z :=
  if Qltb equinox (French.midnightInParis eph equinox)
  then Qfloor equinox else Qfloor equinox + 1.

(** * Properties *)

(** ** Floor and modulo *)

Lemma _mod_eq (a b : Z) : b <> 0 -> _mod a b = a mod b.
Proof. intros Hb. unfold _mod. symmetry. apply Z.mod_eq. exact Hb. Qed.

Lemma _mod_bound (a b : Z) : 0 < b -> 0 <= _mod a b < b.
Proof.
  intros Hb. rewrite _mod_eq by lia. apply Z.mod_pos_bound. exact Hb.
Qed.

Lemma _amod_bound (a b : Z) : 0 < b -> 1 <= _amod a b <= b.
Proof.
  intros Hb. unfold _amod. rewrite _mod_eq by lia.
  pose proof (Z.mod_neg_bound a (- b)). lia.
Qed.

Lemma _amod_congr (a b : Z) : 0 < b -> (_amod a b) mod b = a mod b.
Proof.
  intros Hb. unfold _amod, _mod.
  replace (b + (a - - b * (a / - b))) with (a + (1 + a / - b) * b) by ring.
  apply Z.mod_add. lia.
Qed.

Lemma Qfloor_lt_Z (x : Q) (n : Z) : (x < inject_Z n)%Q -> Qfloor x < n.
Proof.
  intros H. rewrite Zlt_Qlt.
  apply Qle_lt_trans with x; [apply Qfloor_le | exact H].
Qed.

Lemma Qfloor_ge_Z (x : Q) (n : Z) : (inject_Z n <= x)%Q -> n <= Qfloor x.
Proof.
  intros H. apply Qfloor_resp_le in H. rewrite Qfloor_Z in H. exact H.
Qed.

Lemma Qfloor_unique (x : Q) (n : Z) :
  (inject_Z n <= x)%Q -> (x < inject_Z (n + 1))%Q -> Qfloor x = n.
Proof.
  intros Hlo Hhi.
  apply Qfloor_ge_Z in Hlo. apply Qfloor_lt_Z in Hhi. lia.
Qed.

(** ** Whole days *)

Lemma toArray_integer (year month day : Z) :
  toArray year month (inject_Z day) = mkDate year month day 0 0 0.
Proof.
  unfold toArray. rewrite Qfloor_Z.
  assert (H : Qeq_bool (inject_Z day) (inject_Z day) = true)
    by (apply Qeq_bool_iff; reflexivity).
  now rewrite H.
Qed.

(** ** Dates with a time of day, on binary64 numbers *)

Section Binary64.
Import PrimFloat.
#[local] Open Scope float_scope.
#[local] Set Warnings "-inexact-float".

(** [Math.floor] and [Math.round] at a few numbers. *)
Lemma Float64_floor_round_values :
  List.map Float64.Math_floor [2.5; -2.5; 0.5; -0.5; 3; -5e-324]
  = [2; -3; 0; -1; 3; -1]
  /\ List.map Float64.Math_round
       [2.5; -2.5; 0.5; 0.49999999999999994; 1.5; -1.5; -3.7; 59999.5]
     = [3; -2; 1; 0; 2; -1; -4; 60000].
Proof. vm_compute. split; reflexivity. Qed.

(** On a whole day [Float64.toArray] returns the day at 0:00:00; on a day
    with a time of day it splits the fraction into hour, minute and second,
    and a second that rounds to 60 is carried into the minute, the hour and
    the day. *)
Lemma Float64_toArray_values :
  Float64.toArray 2024 6 17 = Float64.mkDate 2024 6 17 0 0 0
  /\ Float64.toArray 2024 6 15.75 = Float64.mkDate 2024 6 15 18 0 0
  /\ Float64.toArray 2024 6 (-0.25) = Float64.mkDate 2024 6 (-1) 18 0 0
  /\ Float64.toArray 2024 6 15.999999999999 = Float64.mkDate 2024 6 16 0 0 0.
Proof. vm_compute. repeat split; reflexivity. Qed.

(** On whole dates the binary64 weekday functions return the values of the
    functions on [Z]. *)
Lemma Float64_weekday_values :
  Float64.weekdayOnOrBefore 738000 Thursday
  = Float64.ofZ (weekdayOnOrBefore 738000 Thursday)
  /\ Float64.getWeekday 738000 = Float64.ofZ (getWeekday 738000)
  /\ Float64.getWeekday 738000.75 = Float64.ofZ (getWeekday 738000).
Proof. vm_compute. repeat split; reflexivity. Qed.

(** *** Weekday cycle *)

(** C9 (the claim fails on the code).  On binary64 numbers, for the fixed
    date [d = 3.9999999999999996], the last number below 4, and the weekday
    [k = 4], [weekdayOnOrBefore d k] is [-3.0000000000000004]: adding 7 gives
    [d] again, so [d < weekdayOnOrBefore d k + 7] is false, and by
    [getWeekday] the result falls on weekday 3, not on [k].  For the fixed
    date [d = -5e-324], the last number below 0, and [k = 0],
    [weekdayOnOrBefore d k] is [0], which is after [d]:
    [weekdayOnOrBefore d k <= d] is false. *)
Theorem weekdayOnOrBefore_fraction :
  Float64.weekdayOnOrBefore 3.9999999999999996 Thursday = -3.0000000000000004
  /\ Float64.weekdayOnOrBefore 3.9999999999999996 Thursday + 7
     = 3.9999999999999996
  /\ (3.9999999999999996
      <? Float64.weekdayOnOrBefore 3.9999999999999996 Thursday + 7) = false
  /\ Float64.getWeekday (Float64.weekdayOnOrBefore 3.9999999999999996 Thursday)
     = 3
  /\ Float64.weekdayOnOrBefore (-5e-324) Sunday = 0
  /\ (Float64.weekdayOnOrBefore (-5e-324) Sunday <=? -5e-324) = false.
Proof. vm_compute. repeat split; reflexivity. Qed.

(** *** Fractional-day decomposition *)

(** C7 (the claim fails on the code).  On binary64 numbers the day
    [0.3 - 0.1 - 0.2] is [-2^-55]: its floor is [-1], the excess
    [day - rday] rounds to 1, the hour is [Math.floor 24] and the second is
    0, so that no carry takes place: [toArray 2024 6 day] is
    [[2024, 6, -1, 24, 0, 0]], and its hour is not below 24. *)
Theorem toArray_hour_24 :
  0.3 - 0.1 - 0.2 = -0x1p-55
  /\ Float64.Math_floor (0.3 - 0.1 - 0.2) = -1
  /\ 0.3 - 0.1 - 0.2 - Float64.Math_floor (0.3 - 0.1 - 0.2) = 1
  /\ Float64.toArray 2024 6 (0.3 - 0.1 - 0.2)
     = Float64.mkDate 2024 6 (-1) 24 0 0
  /\ (Float64.dHour (Float64.toArray 2024 6 (0.3 - 0.1 - 0.2)) <? 24) = false.
Proof. vm_compute. repeat split; reflexivity. Qed.

End Binary64.

(** ** Round trips of the arithmetic calendars *)

Lemma applyDate_eq (f : Z -> Z -> Z -> Z) (a : DateArray) :
  applyDate f a = f (dYear a) (dMonth a) (dDay a).
Proof. reflexivity. Qed.

Ltac date_of_integer :=
  rewrite toArray_integer; unfold applyDate;
  cbn [dYear dMonth dDay dHour dMinute dSecond].

Lemma Egyptian_roundtrip (d : Z) :
  applyDate Egyptian.toFixed (Egyptian.fromFixed d) = d.
Proof.
  unfold Egyptian.fromFixed. date_of_integer.
  unfold Egyptian.toFixed. ring.
Qed.

Lemma Armenian_roundtrip (d : Z) :
  applyDate Armenian.toFixed (Armenian.fromFixed d) = d.
Proof.
  unfold Armenian.fromFixed.
  pose proof (Egyptian_roundtrip (d + Egyptian.EPOCH - Armenian.EPOCH)) as H.
  destruct (Egyptian.fromFixed _) as [y m dd hh mi ss].
  rewrite applyDate_eq in H |- *. cbn [dYear dMonth dDay] in H |- *.
  unfold Armenian.toFixed. rewrite H. ring.
Qed.

Lemma Gregorian_toFixed_day (y m day : Z) :
  Gregorian.toFixed y m day = Gregorian.toFixed y m 1 + day - 1.
Proof. unfold Gregorian.toFixed. ring. Qed.

Lemma Gregorian_roundtrip (d : Z) :
  applyDate Gregorian.toFixed (Gregorian.fromFixed d) = d.
Proof.
  unfold Gregorian.fromFixed. date_of_integer.
  rewrite Gregorian_toFixed_day.
  match goal with |- ?t + _ - 1 = _ => generalize t end.
  intros t. ring.
Qed.

Lemma Julian_toFixed_day (y m day : Z) :
  Julian.toFixed y m day = Julian.toFixed y m 1 + day - 1.
Proof. unfold Julian.toFixed. ring. Qed.

Lemma Julian_roundtrip (d : Z) :
  applyDate Julian.toFixed (Julian.fromFixed d) = d.
Proof.
  unfold Julian.fromFixed. date_of_integer.
  rewrite Julian_toFixed_day.
  match goal with |- ?t + _ - 1 = _ => generalize t end.
  intros t. ring.
Qed.

Lemma Coptic_roundtrip (d : Z) :
  applyDate Coptic.toFixed (Coptic.fromFixed d) = d.
Proof.
  unfold Coptic.fromFixed. date_of_integer.
  unfold Coptic.toFixed. ring.
Qed.

Lemma Ethiopic_roundtrip (d : Z) :
  applyDate Ethiopic.toFixed (Ethiopic.fromFixed d) = d.
Proof.
  unfold Ethiopic.fromFixed.
  pose proof (Coptic_roundtrip (d + Coptic.EPOCH - Ethiopic.EPOCH)) as H.
  destruct (Coptic.fromFixed _) as [y m dd hh mi ss].
  rewrite applyDate_eq in H |- *. cbn [dYear dMonth dDay] in H |- *.
  unfold Ethiopic.toFixed. rewrite H. ring.
Qed.

Lemma Islamic_roundtrip (d : Z) :
  applyDate Islamic.toFixed (Islamic.fromFixed d) = d.
Proof.
  unfold Islamic.fromFixed. date_of_integer.
  unfold Islamic.toFixed. ring.
Qed.

Lemma ModifiedFrench_roundtrip (d : Z) :
  applyDate French.Modified.toFixed (French.Modified.fromFixed d) = d.
Proof.
  unfold French.Modified.fromFixed. date_of_integer.
  unfold French.Modified.toFixed. ring.
Qed.

Lemma LongCount_roundtrip (d : Z) :
  (let '(baktun, katun, tun, uinal, kin) := Mayan.LongCount.fromFixed d in
   Mayan.LongCount.toFixed baktun katun tun uinal kin) = d.
Proof.
  unfold Mayan.LongCount.fromFixed, Mayan.LongCount.toFixed, _mod. ring.
Qed.

(** *** Roman calendar *)

Lemma Julian_march_leap (y : Z) :
  Julian.isLeapYear y = true ->
  Julian.toFixed y 3 1 = Julian.toFixed y 2 1 + 29.
Proof.
  intros H. unfold Julian.toFixed. rewrite H.
  change (3 <=? 2) with false. change (2 <=? 2) with true.
  change ((367 * 3 - 362) / 12) with 61.
  change ((367 * 2 - 362) / 12) with 31. cbv iota. ring.
Qed.

Lemma Julian_toFixed_shift (y m a b : Z) :
  Julian.toFixed y m a = Julian.toFixed y m b + a - b.
Proof. unfold Julian.toFixed. ring. Qed.

(** *** Julian and Roman calendars *)

Lemma Julian_year_start (y : Z) :
  Julian.toFixed y 1 1 =
  let a := if y <? 0 then y else y - 1 in 365 * a + a / 4 - 1.
Proof.
  unfold Julian.toFixed. change (1 <=? 2) with true. cbv iota.
  change ((367 * 1 - 362) / 12) with 0. unfold Julian.EPOCH. cbv zeta. ring.
Qed.

Lemma Julian_year_correct (d : Z) :
  let approx := (4 * (d - Julian.EPOCH) + 1464) / 1461 in
  let a := approx - 1 in
  365 * a + a / 4 - 1 <= d < 365 * (a + 1) + (a + 1) / 4 - 1.
Proof.
  cbv zeta. unfold Julian.EPOCH.
  Z.div_mod_to_equations. lia.
Qed.

Lemma Julian_leap_mod (y : Z) :
  y <> 0 ->
  Julian.isLeapYear y = true <->
  ((if y <? 0 then y else y - 1) + 1) mod 4 = 0.
Proof.
  intros Hy. unfold Julian.isLeapYear. rewrite _mod_eq by lia.
  destruct (Z.ltb_spec 0 y), (Z.ltb_spec y 0); try lia;
    rewrite Z.eqb_eq; split; intros; Z.div_mod_to_equations; lia.
Qed.

Lemma Julian_fromFixed_spec (d : Z) :
  let j := Julian.fromFixed d in
  1 <= dMonth j <= 12
  /\ Julian.toFixed (dYear j) 1 1 <= d
  /\ dYear j <> 0
  /\ 1 <= dDay j <= 31.
Proof.
  unfold Julian.fromFixed. rewrite toArray_integer.
  cbn [dYear dMonth dDay].
  pose proof (Julian_year_correct d) as Hyc. cbv zeta in Hyc.
  set (approx := (4 * (d - Julian.EPOCH) + 1464) / 1461) in *.
  set (year := if 0 <? approx then approx else approx - 1).
  assert (Ha : (if year <? 0 then year else year - 1) = approx - 1).
  { unfold year. destruct (Z.ltb_spec 0 approx).
    - destruct (Z.ltb_spec approx 0); lia.
    - destruct (Z.ltb_spec (approx - 1) 0); lia. }
  assert (Hy0 : year <> 0) by (unfold year; destruct (Z.ltb_spec 0 approx); lia).
  pose proof (Julian_leap_mod year Hy0) as Hleap. rewrite Ha in Hleap.
  assert (H31 : Julian.toFixed year 3 1 =
                Julian.toFixed year 1 1 + 61
                + (if Julian.isLeapYear year then -1 else -2)).
  { unfold Julian.toFixed. change (3 <=? 2) with false.
    change (1 <=? 2) with true. cbv iota.
    change ((367 * 3 - 362) / 12) with 61.
    change ((367 * 1 - 362) / 12) with 0. ring. }
  rewrite H31.
  assert (Hm : forall m, Julian.toFixed year m 1 =
     Julian.toFixed year 1 1 + (367 * m - 362) / 12 +
     (if m <=? 2 then 0 else if Julian.isLeapYear year then -1 else -2)).
  { intros m. unfold Julian.toFixed. change (1 <=? 2) with true. cbv iota.
    change ((367 * 1 - 362) / 12) with 0. ring. }
  rewrite (Hm ((12 * _ + 373) / 367)).
  rewrite Julian_year_start. cbv zeta. rewrite Ha.
  replace (approx - 1 + 1) with approx in * by ring.
  destruct (Julian.isLeapYear year) eqn:HL.
  - assert (Hl : approx mod 4 = 0) by (apply Hleap; reflexivity).
    destruct (Z.ltb_spec d (365 * (approx - 1) + (approx - 1) / 4 - 1 + 61 + -1)).
    + match goal with |- context [?m <=? 2] => destruct (Z.leb_spec m 2) end;
      repeat split; try exact Hy0; Z.div_mod_to_equations; lia.
    + match goal with |- context [?m <=? 2] => destruct (Z.leb_spec m 2) end;
      repeat split; try exact Hy0; Z.div_mod_to_equations; lia.
  - assert (Hl : approx mod 4 <> 0).
    { intros E. apply Hleap in E. discriminate. }
    destruct (Z.ltb_spec d (365 * (approx - 1) + (approx - 1) / 4 - 1 + 61 + -2)).
    + match goal with |- context [?m <=? 2] => destruct (Z.leb_spec m 2) end;
      repeat split; try exact Hy0; Z.div_mod_to_equations; lia.
    + match goal with |- context [?m <=? 2] => destruct (Z.leb_spec m 2) end;
      repeat split; try exact Hy0; Z.div_mod_to_equations; lia.
Qed.

Lemma Roman_toFixed_plain (y m : Z) (e : Roman.RomanEvent) (count : Z) :
  Julian.isLeapYear y && (m =? 3) && Roman.RomanEvent_eqb e Roman.Kalends
    && (6 <=? count) && (count <=? 16) = false ->
  Roman.toFixed y m e count false =
  Julian.toFixed y m
    (match e with
     | Roman.Kalends => 1
     | Roman.Nones => Roman.nones m
     | Roman.Ides => Roman.ides m
     end) - count + 1.
Proof.
  intros H. unfold Roman.toFixed. rewrite H. destruct e; cbn; ring.
Qed.

Lemma Roman_roundtrip (d : Z) : applyRoman (Roman.fromFixed d) = d.
Proof.
  unfold Roman.fromFixed.
  pose proof (Julian_roundtrip d) as HJ. unfold applyDate in HJ.
  pose proof (Julian_fromFixed_spec d) as (Hmonth & _ & _ & _).
  cbv zeta in Hmonth.
  destruct (Julian.fromFixed d) as [year month day hh mm ss].
  cbn [dYear dMonth dDay] in *.
  destruct (Z.eqb_spec day 1) as [H1 | H1].
  { unfold applyRoman. cbn [Roman.rYear Roman.rMonth Roman.rEvent
                             Roman.rCount Roman.rLeap].
    rewrite Roman_toFixed_plain.
    - pose proof HJ as HJ1. rewrite H1 in HJ1. lia.
    - change (6 <=? 1) with false. now rewrite andb_false_r. }
  destruct (Z.leb_spec day (Roman.nones month)) as [H2 | H2].
  { unfold applyRoman. cbn [Roman.rYear Roman.rMonth Roman.rEvent
                             Roman.rCount Roman.rLeap].
    rewrite Roman_toFixed_plain.
    - rewrite (Julian_toFixed_shift year month (Roman.nones month) day). lia.
    - cbn [Roman.RomanEvent_eqb]. now rewrite !andb_false_r. }
  destruct (Z.leb_spec day (Roman.ides month)) as [H3 | H3].
  { unfold applyRoman. cbn [Roman.rYear Roman.rMonth Roman.rEvent
                             Roman.rCount Roman.rLeap].
    rewrite Roman_toFixed_plain.
    - rewrite (Julian_toFixed_shift year month (Roman.ides month) day). lia.
    - cbn [Roman.RomanEvent_eqb]. now rewrite !andb_false_r. }
  destruct (negb (month =? 2) || negb (Julian.isLeapYear year)) eqn:H4.
  { set (month2 := _amod (month + 1) 12).
    set (year2 := if negb (month2 =? 1) then year
                  else if (month2 =? 1) && negb (year =? -1) then year + 1
                  else 1).
    unfold applyRoman. cbn [Roman.rYear Roman.rMonth Roman.rEvent
                             Roman.rCount Roman.rLeap].
    assert (Hf : Julian.isLeapYear year2 && (month2 =? 3) = false).
    { destruct (Z.eqb_spec month2 3) as [E | E]; [|apply andb_false_r].
      rewrite andb_true_r.
      assert (Hm : month = 2).
      { pose proof (_amod_congr (month + 1) 12 ltac:(lia)) as Hc.
        fold month2 in Hc. rewrite E in Hc.
        change (3 mod 12) with 3 in Hc.
        Z.div_mod_to_equations. lia. }
      assert (Hy : year2 = year).
      { unfold year2. rewrite E. reflexivity. }
      rewrite Hy. rewrite Hm in H4. change (2 =? 2) with true in H4. cbn [negb orb] in H4.
      destruct (Julian.isLeapYear year); [discriminate | reflexivity]. }
    rewrite (Roman_toFixed_plain year2 month2 Roman.Kalends).
    - rewrite (Roman_toFixed_plain year2 month2 Roman.Kalends 1).
      + lia.
      + change (6 <=? 1) with false. now rewrite andb_false_r.
    - rewrite Hf. reflexivity. }
  apply orb_false_iff in H4 as [Hm Hl].
  apply negb_false_iff in Hm, Hl. apply Z.eqb_eq in Hm.
  assert (Hi : Roman.ides month = 13) by (rewrite Hm; reflexivity).
  rewrite Hi in H3.
  pose proof (Julian_march_leap year Hl) as Hmar.
  rewrite Hm in HJ.
  rewrite (Julian_toFixed_shift year 2 day 1) in HJ.
  destruct (Z.ltb_spec day 25) as [H5 | H5].
  { unfold applyRoman, Roman.toFixed.
    cbn [Roman.rYear Roman.rMonth Roman.rEvent Roman.rCount Roman.rLeap].
    rewrite Hl. cbn [Roman.RomanEvent_eqb andb].
    change (3 =? 3) with true. cbn [andb].
    destruct (Z.leb_spec 6 (30 - day)); [|lia].
    destruct (Z.leb_spec (30 - day) 16); [|lia].
    cbn [andb]. lia. }
  unfold applyRoman, Roman.toFixed.
  cbn [Roman.rYear Roman.rMonth Roman.rEvent Roman.rCount Roman.rLeap].
  rewrite Hl. cbn [Roman.RomanEvent_eqb andb].
  change (3 =? 3) with true. cbn [andb].
  destruct (Z.eqb_spec day 25) as [E | E].
  - rewrite E in *. change (6 <=? 31 - 25) with true.
    change (31 - 25 <=? 16) with true. cbn [andb]. lia.
  - destruct (Z.leb_spec 6 (31 - day)); [lia|]. cbn [andb]. lia.
Qed.

(** *** Gregorian and ISO calendars *)

Lemma Gregorian_year_start (y : Z) :
  Gregorian.toFixed y 1 1 =
  365 * (y - 1) + (y - 1) / 4 - (y - 1) / 100 + (y - 1) / 400 + 1.
Proof.
  unfold Gregorian.toFixed. change (2 <? 1) with false. cbv iota.
  change ((367 * 1 - 362) / 12) with 0. ring.
Qed.

Lemma Gregorian_leap_mod (y : Z) :
  Gregorian.isLeapYear y = true <->
  (y mod 400 = 0 \/ (y mod 4 = 0 /\ y mod 100 <> 0)).
Proof.
  unfold Gregorian.isLeapYear. rewrite !_mod_eq by lia.
  rewrite orb_true_iff, andb_true_iff, negb_true_iff, !Z.eqb_eq, Z.eqb_neq.
  reflexivity.
Qed.

Lemma Gregorian_dec28 (y : Z) :
  Gregorian.toFixed (y - 1) 12 28 + 4 = Gregorian.toFixed y 1 1.
Proof.
  rewrite Gregorian_year_start.
  unfold Gregorian.toFixed. change (2 <? 12) with true. cbv iota.
  change ((367 * 12 - 362) / 12) with 336.
  replace (y - 1 - 1) with (y - 2) by ring.
  pose proof (Gregorian_leap_mod (y - 1)) as HL.
  destruct (Gregorian.isLeapYear (y - 1)).
  - destruct HL as [HL _]. specialize (HL eq_refl).
    Z.div_mod_to_equations. lia.
  - assert (H : ~ ((y - 1) mod 400 = 0 \/ (y - 1) mod 4 = 0 /\ (y - 1) mod 100 <> 0)).
    { intros E. apply HL in E. discriminate. }
    clear HL. Z.div_mod_to_equations. lia.
Qed.

Lemma Gregorian_yearFromFixed_start (d : Z) :
  Gregorian.toFixed (Gregorian.yearFromFixed d) 1 1 <= d.
Proof.
  rewrite Gregorian_year_start. unfold Gregorian.yearFromFixed.
  cbv zeta. rewrite !_mod_eq by lia.
  set (d0 := d - 1).
  set (n400 := d0 / 146097). set (d1 := d0 mod 146097).
  set (n100 := d1 / 36524). set (d2 := d1 mod 36524).
  set (n4 := d2 / 1461). set (d3 := d2 mod 1461).
  set (n1 := d3 / 365).
  assert (H0 : d0 = 146097 * n400 + d1 /\ 0 <= d1 < 146097).
  { unfold n400, d1. Z.div_mod_to_equations. lia. }
  assert (H1 : d1 = 36524 * n100 + d2 /\ 0 <= d2 < 36524).
  { unfold n100, d2. Z.div_mod_to_equations. lia. }
  assert (H2 : d2 = 1461 * n4 + d3 /\ 0 <= d3 < 1461).
  { unfold n4, d3. Z.div_mod_to_equations. lia. }
  assert (H3 : 365 * n1 <= d3 < 365 * n1 + 365).
  { unfold n1. Z.div_mod_to_equations. lia. }
  assert (Hd : d = d0 + 1) by (unfold d0; ring).
  clearbody d0 n400 d1 n100 d2 n4 d3 n1.
  destruct (Z.eqb_spec n100 4); [cbn [orb] | destruct (Z.eqb_spec n1 4); cbn [orb]].
  - Z.div_mod_to_equations. lia.
  - Z.div_mod_to_equations. lia.
  - Z.div_mod_to_equations. lia.
Qed.

Lemma ISO_year_start (y : Z) :
  ISO.toFixed y 1 1 =
  weekdayOnOrBefore (Gregorian.toFixed (y - 1) 12 28 - 1) Sunday + 8.
Proof.
  unfold ISO.toFixed, nthWeekday. change (0 <? 1) with true. cbv iota. ring.
Qed.

Lemma ISO_year_start_le (y : Z) :
  ISO.toFixed y 1 1 <= Gregorian.toFixed y 1 1 + 3.
Proof.
  rewrite ISO_year_start, <- Gregorian_dec28.
  unfold weekdayOnOrBefore.
  pose proof (_mod_bound (Gregorian.toFixed (y - 1) 12 28 - 1 - Sunday) 7).
  lia.
Qed.

Lemma nthWeekday_week (g d : Z) :
  weekdayOnOrBefore (g - 1) Sunday + 8 <= d ->
  nthWeekday ((d - (weekdayOnOrBefore (g - 1) Sunday + 8)) / 7 + 1) Sunday g
  + _amod d 7 = d.
Proof.
  intros Hy.
  pose proof (_amod_bound d 7 ltac:(lia)) as Hb.
  pose proof (_amod_congr d 7 ltac:(lia)) as Hc.
  set (day := _amod d 7) in *. clearbody day.
  unfold nthWeekday.
  assert (HS : (weekdayOnOrBefore (g - 1) Sunday) mod 7 = 0).
  { unfold weekdayOnOrBefore. rewrite _mod_eq by lia.
    change (Weekday_num Sunday) with 0.
    Z.div_mod_to_equations. lia. }
  set (S := weekdayOnOrBefore (g - 1) Sunday) in *. clearbody S.
  set (w := (d - (S + 8)) / 7 + 1).
  assert (Hw : 0 < w /\ 7 * w + S + day = d).
  { unfold w. Z.div_mod_to_equations. lia. }
  clearbody w.
  destruct (Z.ltb_spec 0 w) as [Hw' | Hw']; lia.
Qed.


Lemma ISO_year_le (d : Z) :
  ISO.toFixed
    (if ISO.toFixed (Gregorian.yearFromFixed (d - 3) + 1) 1 1 <=? d
     then Gregorian.yearFromFixed (d - 3) + 1
     else Gregorian.yearFromFixed (d - 3)) 1 1 <= d.
Proof.
  set (approx := Gregorian.yearFromFixed (d - 3)).
  destruct (Z.leb_spec (ISO.toFixed (approx + 1) 1 1) d) as [H | H].
  - exact H.
  - pose proof (ISO_year_start_le approx).
    pose proof (Gregorian_yearFromFixed_start (d - 3)). fold approx in H1.
    lia.
Qed.

Lemma ISO_toFixed_week (year d : Z) :
  ISO.toFixed year 1 1 <= d ->
  ISO.toFixed year ((d - ISO.toFixed year 1 1) / 7 + 1) (_amod d 7) = d.
Proof.
  intros Hy. rewrite ISO_year_start in Hy |- *.
  unfold ISO.toFixed. apply nthWeekday_week. exact Hy.
Qed.

Lemma ISO_roundtrip (d : Z) : applyDate ISO.toFixed (ISO.fromFixed d) = d.
Proof.
  unfold ISO.fromFixed. rewrite toArray_integer.
  unfold applyDate. cbn [dYear dMonth dDay].
  apply ISO_toFixed_week. apply ISO_year_le.
Qed.

(** ** Hebrew year lengths *)

Lemma elapsedOfDay_shift (D k c : Z) :
  D = 7 * k + c -> elapsedOfDay D = 7 * k + elapsedOfDay c.
Proof.
  intros ->. unfold elapsedOfDay. rewrite !_mod_eq by lia.
  replace (3 * (7 * k + c + 1)) with (3 * (c + 1) + (3 * k) * 7) by ring.
  rewrite Z.mod_add by lia.
  destruct (_ <? 3); ring.
Qed.

Lemma dayOfMonths_floor (m : Z) :
  25920 * dayOfMonths m <= 765433 * m + 12084 < 25920 * dayOfMonths m + 25920.
Proof. unfold dayOfMonths. Z.div_mod_to_equations. lia. Qed.

Ltac eval_elapsed :=
  repeat match goal with
  | |- context [elapsedOfDay ?c] =>
      let v := eval vm_compute in (elapsedOfDay c) in
      change (elapsedOfDay c) with v
  end.

Ltac split_eqb :=
  repeat match goal with
  | |- context [?x =? ?y] => destruct (Z.eqb_spec x y)
  end.

Ltac year_length_cases k w Hk C D0 D1 D2 D3 C0 C2 C3 :=
  destruct C as [-> | [-> | [-> | [-> | [-> | [-> | ->]]]]]];
  destruct C0 as [E0 | E0]; destruct C2 as [E2 | E2]; try (exfalso; lia);
  destruct C3 as [E3 | E3]; try (exfalso; lia);
  (match type of Hk with _ = _ + ?w0 =>
   match type of E0 with _ = _ + ?c0 =>
   match type of E2 with _ = _ + ?c2 =>
   match type of E3 with _ = _ + ?c3 =>
     rewrite (elapsedOfDay_shift D1 k w0 Hk);
     rewrite (elapsedOfDay_shift D0 k (w0 + c0)) by lia;
     rewrite (elapsedOfDay_shift D2 k (w0 + c2)) by lia;
     rewrite (elapsedOfDay_shift D3 k (w0 + c2 + c3)) by lia
   end end end end;
   eval_elapsed; unfold delayOf, lengthOK; split_eqb; lia).

Lemma year_length_months (m a b c : Z) :
  (a = 12 /\ b = 12 /\ c = 13) \/ (a = 12 /\ b = 13 /\ c = 12) \/
  (a = 13 /\ b = 12 /\ c = 12) \/ (a = 13 /\ b = 12 /\ c = 13) ->
  let e0 := elapsedOfDay (dayOfMonths (m - a)) in
  let e1 := elapsedOfDay (dayOfMonths m) in
  let e2 := elapsedOfDay (dayOfMonths (m + b)) in
  let e3 := elapsedOfDay (dayOfMonths (m + b + c)) in
  lengthOK ((e2 + delayOf e1 e2 e3) - (e1 + delayOf e0 e1 e2)).
Proof.
  intros Hp. cbv zeta.
  pose proof (dayOfMonths_floor (m - a)) as H0.
  pose proof (dayOfMonths_floor m) as H1.
  pose proof (dayOfMonths_floor (m + b)) as H2.
  pose proof (dayOfMonths_floor (m + b + c)) as H3.
  set (D0 := dayOfMonths (m - a)) in *. set (D1 := dayOfMonths m) in *.
  set (D2 := dayOfMonths (m + b)) in *.
  set (D3 := dayOfMonths (m + b + c)) in *.
  clearbody D0 D1 D2 D3.
  assert (Hk : exists k w, D1 = 7 * k + w /\ 0 <= w < 7).
  { exists (D1 / 7), (D1 mod 7). Z.div_mod_to_equations. lia. }
  destruct Hk as (k & w & Hk & Hw).
  assert (C : w = 0 \/ w = 1 \/ w = 2 \/ w = 3 \/ w = 4 \/ w = 5 \/ w = 6) by lia.
  clear Hw.
  destruct Hp as [(-> & -> & ->) | [(-> & -> & ->) | [(-> & -> & ->) | (-> & -> & ->)]]].
  - assert (C0 : D0 = D1 + -355 \/ D0 = D1 + -354) by lia.
    assert (C2 : D2 = D1 + 354 \/ D2 = D1 + 355) by lia.
    assert (C3 : D3 = D2 + 383 \/ D3 = D2 + 384) by lia.
    year_length_cases k w Hk C D0 D1 D2 D3 C0 C2 C3.
  - assert (C0 : D0 = D1 + -355 \/ D0 = D1 + -354) by lia.
    assert (C2 : D2 = D1 + 383 \/ D2 = D1 + 384) by lia.
    assert (C3 : D3 = D2 + 354 \/ D3 = D2 + 355) by lia.
    year_length_cases k w Hk C D0 D1 D2 D3 C0 C2 C3.
  - assert (C0 : D0 = D1 + -384 \/ D0 = D1 + -383) by lia.
    assert (C2 : D2 = D1 + 354 \/ D2 = D1 + 355) by lia.
    assert (C3 : D3 = D2 + 354 \/ D3 = D2 + 355) by lia.
    year_length_cases k w Hk C D0 D1 D2 D3 C0 C2 C3.
  - assert (C0 : D0 = D1 + -384 \/ D0 = D1 + -383) by lia.
    assert (C2 : D2 = D1 + 354 \/ D2 = D1 + 355) by lia.
    assert (C3 : D3 = D2 + 383 \/ D3 = D2 + 384) by lia.
    year_length_cases k w Hk C D0 D1 D2 D3 C0 C2 C3.
Qed.


Lemma monthsElapsed_pattern (y : Z) :
  let a := monthsElapsed y - monthsElapsed (y - 1) in
  let b := monthsElapsed (y + 1) - monthsElapsed y in
  let c := monthsElapsed (y + 2) - monthsElapsed (y + 1) in
  (a = 12 /\ b = 12 /\ c = 13) \/ (a = 12 /\ b = 13 /\ c = 12) \/
  (a = 13 /\ b = 12 /\ c = 12) \/ (a = 13 /\ b = 12 /\ c = 13).
Proof.
  unfold monthsElapsed. cbv zeta. Z.div_mod_to_equations. lia.
Qed.

Lemma elapsedDays_months (y : Z) :
  Hebrew.elapsedDays y = elapsedOfDay (dayOfMonths (monthsElapsed y)).
Proof.
  unfold Hebrew.elapsedDays, elapsedOfDay. cbv zeta.
  assert (E : Qfloor (Hebrew.molad y Hebrew.TISHRI - inject_Z Hebrew.EPOCH + (1 # 2))
              = dayOfMonths (monthsElapsed y)).
  { unfold Hebrew.molad. change (Hebrew.TISHRI <? Hebrew.TISHRI) with false.
    cbv iota zeta. fold (monthsElapsed y).
    replace (Hebrew.TISHRI - Hebrew.TISHRI + monthsElapsed y)
      with (monthsElapsed y) by ring.
    set (m := monthsElapsed y).
    assert (Q : (inject_Z Hebrew.EPOCH - (876 # 25920)
                 + inject_Z m * ((59 # 2) + (793 # 25920))
                 - inject_Z Hebrew.EPOCH + (1 # 2)
                 == (765433 * m + 12084) # 25920)%Q).
    { rewrite (Qmake_Qdiv (765433 * m + 12084) 25920).
      rewrite inject_Z_plus, inject_Z_mult. field. }
    rewrite (Qfloor_comp _ _ Q). unfold dayOfMonths, Qfloor.
    Z.div_mod_to_equations. lia. }
  rewrite E. reflexivity.
Qed.

Lemma newYearDelay_delayOf (y : Z) :
  Hebrew.newYearDelay y =
  delayOf (Hebrew.elapsedDays (y - 1)) (Hebrew.elapsedDays y)
    (Hebrew.elapsedDays (y + 1)).
Proof. reflexivity. Qed.

Lemma daysInYear_lengthOK (y : Z) : lengthOK (Hebrew.daysInYear y).
Proof.
  unfold Hebrew.daysInYear, Hebrew.newYear.
  rewrite !newYearDelay_delayOf.
  replace (y + 1 - 1) with y by ring.
  replace (y + 1 + 1) with (y + 2) by ring.
  rewrite !elapsedDays_months.
  pose proof (monthsElapsed_pattern y) as Hp. cbv zeta in Hp.
  pose proof (year_length_months (monthsElapsed y) _ _ _ Hp) as H.
  cbv zeta in H.
  replace (monthsElapsed y - (monthsElapsed y - monthsElapsed (y - 1)))
    with (monthsElapsed (y - 1)) in H by ring.
  replace (monthsElapsed y + (monthsElapsed (y + 1) - monthsElapsed y))
    with (monthsElapsed (y + 1)) in H by ring.
  replace (monthsElapsed (y + 1) + (monthsElapsed (y + 2) - monthsElapsed (y + 1)))
    with (monthsElapsed (y + 2)) in H by ring.
  match goal with
  | |- lengthOK ?l => match type of H with lengthOK ?r =>
      replace l with r by ring end end.
  exact H.
Qed.

Lemma daysInYear_eq (y : Z) :
  Hebrew.daysInYear y = Hebrew.newYear (y + 1) - Hebrew.newYear y.
Proof. reflexivity. Qed.

Lemma newYear_increasing (y : Z) : Hebrew.newYear y < Hebrew.newYear (y + 1).
Proof.
  pose proof (daysInYear_lengthOK y) as H.
  rewrite daysInYear_eq in H.
  generalize dependent (Hebrew.newYear (y + 1)).
  generalize (Hebrew.newYear y).
  intros a b [H | [H | [H | [H | [H | H]]]]]; lia.
Qed.

Lemma yearLoop_terminates (n : nat) :
  forall year date,
    date < Hebrew.newYear year + Z.of_nat n ->
    exists y, Hebrew.yearLoop (S n) year date = Some y.
Proof.
  induction n as [|n IH]; intros year date H.
  - cbn [Hebrew.yearLoop]. destruct (Z.ltb_spec date (Hebrew.newYear year)).
    + eexists; reflexivity.
    + exfalso. change (Z.of_nat 0) with 0 in H. lia.
  - change (Hebrew.yearLoop (S (S n)) year date) with
      (if date <? Hebrew.newYear year then Some (year - 1)
       else Hebrew.yearLoop (S n) (year + 1) date).
    destruct (Z.ltb_spec date (Hebrew.newYear year)).
    + eexists; reflexivity.
    + apply IH. pose proof (newYear_increasing year). lia.
Qed.

Lemma Hebrew_toFixed_day (y m day : Z) :
  Hebrew.toFixed y m day = Hebrew.toFixed y m 1 + day - 1.
Proof.
  unfold Hebrew.toFixed. cbv zeta.
  generalize (Hebrew.newYear y).
  match goal with |- forall _, _ + _ - 1 + ?t = _ => generalize t end.
  intros s n. ring.
Qed.

Lemma Hebrew_fromFixed_sound (fuel : nat) (d : Z) (a : DateArray) :
  Hebrew.fromFixed fuel d = Some a -> applyDate Hebrew.toFixed a = d.
Proof.
  unfold Hebrew.fromFixed.
  destruct (Hebrew.yearLoop fuel _ d) as [year|]; [|discriminate].
  rewrite toArray_integer. intros [= <-].
  unfold applyDate. cbn [dYear dMonth dDay].
  rewrite Hebrew_toFixed_day.
  match goal with |- ?t + _ - 1 = _ => generalize t end.
  intros t. ring.
Qed.


Lemma Hebrew_roundtrip (d : Z) :
  exists a, Hebrew.fromFixed (Hebrew_fuel d) d = Some a
            /\ applyDate Hebrew.toFixed a = d.
Proof.
  unfold Hebrew_fuel. cbv zeta.
  set (approx := ((d - Hebrew.EPOCH) * 98496) / 35975351 + 1).
  set (n := Z.to_nat (d - Hebrew.newYear (approx - 1) + 1)).
  destruct (yearLoop_terminates n (approx - 1) d) as [y Hy].
  { unfold n. lia. }
  assert (E : exists a, Hebrew.fromFixed (S n) d = Some a).
  { unfold Hebrew.fromFixed. fold approx. rewrite Hy. eexists; reflexivity. }
  destruct E as [a Ha]. exists a. split; [exact Ha|].
  eapply Hebrew_fromFixed_sound; exact Ha.
Qed.

(** ** Conformance vectors *)

(** C2, as stated: the Islamic and the Julian vector do not hold. *)
Lemma conformance_vectors_as_stated :
  ~ (Gregorian.toFixed 1970 1 1 = 719163
     /\ (JD.fromFixed 719163 == 4881175 # 2)%Q
     /\ Islamic.toFixed 622 7 16 = 227015
     /\ Julian.toFixed 0 12 30 = -1).
Proof. intros (_ & _ & H & _). vm_compute in H. discriminate H. Qed.

(** C2, amended. [Gregorian.toFixed 1970 1 1 = 719163] and
    [JD.fromFixed 719163 = 2440587.5]; 227015, the epoch of the Islamic
    calendar, is [Julian.toFixed 622 7 16] and [Islamic.toFixed 1 1 1] (and
    [Islamic.toFixed 622 7 16] is 447269); -1, the epoch of the Julian
    calendar, is [Gregorian.toFixed 0 12 30] and [Julian.toFixed 1 1 1] (and
    [Julian.toFixed 0 12 30] is -4). *)
Theorem conformance_vectors :
  Gregorian.toFixed 1970 1 1 = 719163
  /\ (JD.fromFixed 719163 == 4881175 # 2)%Q
  /\ Julian.toFixed 622 7 16 = Islamic.EPOCH
  /\ Islamic.toFixed 1 1 1 = Islamic.EPOCH
  /\ Islamic.EPOCH = 227015
  /\ Islamic.toFixed 622 7 16 = 447269
  /\ Gregorian.toFixed 0 12 30 = Julian.EPOCH
  /\ Julian.toFixed 1 1 1 = Julian.EPOCH
  /\ Julian.EPOCH = -1
  /\ Julian.toFixed 0 12 30 = -4.
Proof. repeat split; vm_compute; reflexivity. Qed.

(** ** Dawn, dusk and the crescent *)

Lemma Qltb_lt (a b : Q) : Qltb a b = true <-> (a < b)%Q.
Proof.
  unfold Qltb. rewrite negb_true_iff.
  split.
  - intros H. apply Qnot_le_lt. intros L.
    apply Qle_bool_iff in L. congruence.
  - intros H. destruct (Qle_bool b a) eqn:E; [|reflexivity].
    apply Qle_bool_iff in E. exfalso. apply (Qlt_not_le _ _ H E).
Qed.

(** C3. When the sine offset computed from the approximate instant, the
    locality and the depression angle exceeds 1 in absolute value,
    [momentFromDepression] returns no value. *)
Theorem momentFromDepression_none (eph : Ephemeris) (approx : Q)
    (locale : Locality) (angle : Q) :
  (1 < Qabs (sineOffset eph approx locale angle))%Q ->
  momentFromDepression eph approx locale angle = None.
Proof.
  intros H. unfold momentFromDepression. cbv zeta.
  apply Qltb_lt in H. rewrite H. reflexivity.
Qed.

Lemma momentFromDepression_none_witness :
  (1 < Qabs (sineOffset sampleEphemeris (1 # 4) polar (9 # 2)))%Q
  /\ momentFromDepression sampleEphemeris (1 # 4) polar (9 # 2) = None.
Proof.
  split.
  - vm_compute. reflexivity.
  - apply (momentFromDepression_none sampleEphemeris (1 # 4) polar (9 # 2)).
    vm_compute. reflexivity.
Defined.

Lemma momentFromDepression_some (eph : Ephemeris) (approx : Q)
    (locale : Locality) (angle : Q) :
  (Qabs (sineOffset eph approx locale angle) <= 1)%Q ->
  momentFromDepression eph approx locale angle <> None.
Proof.
  intros H. unfold momentFromDepression. cbv zeta.
  destruct (Qltb 1 (Qabs (sineOffset eph approx locale angle))) eqn:E.
  - apply Qltb_lt in E. exfalso. apply (Qlt_not_le _ _ E H).
  - discriminate.
Qed.

(** C4, as stated: at latitude 70 the first pass of [dawn] has no value and
    [dawn] still returns a moment. *)
Lemma dawn_after_failed_first_pass :
  momentFromDepression sampleEphemeris (0 + (1 # 4)) polar (9 # 2) = None
  /\ dawn sampleEphemeris 0 polar (9 # 2) <> None.
Proof.
  split.
  - vm_compute. reflexivity.
  - vm_compute. discriminate.
Qed.

(** C4, amended. [dawn] calls [momentFromDepression] at [date + 1/4] and
    again at the result of that call, or at [date] when the first call has no
    value; [dusk] does the same from [date + 3/4], with [date + 0.99] in
    place of [date].  Each returns no value exactly when its second call
    does, and otherwise the standard time of the second moment. *)
Theorem dawn_dusk_two_pass (eph : Ephemeris) (date : Q) (locale : Locality)
    (angle : Q) :
  let seedDawn :=
    match momentFromDepression eph (date + (1 # 4)) locale angle with
    | Some a => a
    | None => date
    end in
  let seedDusk :=
    match momentFromDepression eph (date + (3 # 4)) locale angle with
    | Some a => a
    | None => (date + (99 # 100))%Q
    end in
  dawn eph date locale angle =
    option_map (fun r => Time.standardFromLocal r locale)
      (momentFromDepression eph seedDawn locale angle)
  /\ dusk eph date locale angle =
    option_map (fun r => Time.standardFromLocal r locale)
      (momentFromDepression eph seedDusk locale angle)
  /\ (dawn eph date locale angle = None <->
      momentFromDepression eph seedDawn locale angle = None)
  /\ (dusk eph date locale angle = None <->
      momentFromDepression eph seedDusk locale angle = None).
Proof.
  cbv zeta. unfold dawn, dusk. cbv zeta.
  destruct (momentFromDepression eph (date + (1 # 4)) locale angle) as [a|];
    destruct (momentFromDepression eph (date + (3 # 4)) locale angle) as [b|];
    (split; [|split; [|split]]);
    try (destruct (momentFromDepression eph _ locale angle) as [r|];
         cbn; first [reflexivity | split; congruence]).
Qed.

(** C5. When [dusk] of the preceding day has no value, [isCrescentVisible]
    does not stop: it evaluates its criteria at the Julian Day of
    [0 - zone / 24], the value of [null - zone / 24]. *)
Theorem isCrescentVisible_null_dusk (eph : Ephemeris) (date : Q)
    (locale : Locality) :
  dusk eph (date - 1) locale (9 # 2) = None ->
  Astronomy.isCrescentVisible eph date locale =
  Astronomy.crescentCriteria eph
    (JD.fromFixed (0 - zone locale / 24)) locale.
Proof.
  intros H. unfold Astronomy.isCrescentVisible, Astronomy.crescentInstant.
  cbv zeta. rewrite H. reflexivity.
Qed.

Lemma isCrescentVisible_null_dusk_witness :
  dusk sampleEphemeris (1 - 1) polar (9 # 2) = None
  /\ Astronomy.isCrescentVisible sampleEphemeris 1 polar = true.
Proof.
  split.
  - vm_compute. reflexivity.
  - rewrite (isCrescentVisible_null_dusk sampleEphemeris 1 polar).
    + vm_compute. reflexivity.
    + vm_compute. reflexivity.
Defined.

Lemma phasisLoop_scan (visible : Q -> bool) (tau : Q) (n : nat) :
  forall (i : Z) (crescent : Q),
  (exists k, 0 <= k < Z.of_nat n
     /\ Astronomy.phasisLoop visible n tau i crescent = (tau + inject_Z (i + k))%Q
     /\ (forall j, 0 <= j < k -> visible (tau + inject_Z (i + j))%Q = false)
     /\ (visible (tau + inject_Z (i + k))%Q = true \/ k = Z.of_nat n - 1))
  \/ (n = O /\ Astronomy.phasisLoop visible n tau i crescent = crescent).
Proof.
  induction n as [|n IH]; intros i crescent.
  - right. split; reflexivity.
  - left. cbn [Astronomy.phasisLoop].
    destruct (visible (tau + inject_Z i)%Q) eqn:V.
    + exists 0. rewrite Z.add_0_r.
      split; [lia | split; [reflexivity | split; [intros j Hj; lia |]]].
      left. exact V.
    + destruct (IH (i + 1) (tau + inject_Z i)%Q)
        as [(k & Hk & E & Hj & Hv) | (-> & E)].
      * exists (k + 1).
        replace (i + (k + 1)) with (i + 1 + k) by ring.
        split; [lia | split; [exact E | split]].
        -- intros j Hj'. destruct (Z.eq_dec j 0) as [-> | Hn].
           ++ rewrite Z.add_0_r. exact V.
           ++ replace (i + j) with (i + 1 + (j - 1)) by ring.
              apply Hj. lia.
        -- destruct Hv as [Hv | Hv]; [left; exact Hv | right; lia].
      * exists 0. rewrite Z.add_0_r.
        split; [lia | split; [exact E | split; [intros j Hj; lia |]]].
        right. reflexivity.
Qed.

(** C10. [phasisOnOrBefore] tries at most the 30 days [tau], ..., [tau + 29]
    and returns the first of them on which [isCrescentVisible] holds; when
    none is visible it returns [tau + 29].  [tau] is 2 days before the mean
    estimate, or 30 days before it. *)
Theorem phasisOnOrBefore_scan (eph : Ephemeris) (date : Q) (locale : Locality) :
  exists i,
    0 <= i < 30
    /\ Astronomy.phasisOnOrBefore eph date locale
       = (Astronomy.phasisStart eph date locale + inject_Z i)%Q
    /\ (forall j, 0 <= j < i ->
          Astronomy.isCrescentVisible eph
            (Astronomy.phasisStart eph date locale + inject_Z j)%Q locale
          = false)
    /\ (Astronomy.isCrescentVisible eph
          (Astronomy.phasisStart eph date locale + inject_Z i)%Q locale = true
        \/ i = 29).
Proof.
  unfold Astronomy.phasisOnOrBefore. cbv zeta.
  set (tau := Astronomy.phasisStart eph date locale).
  destruct (phasisLoop_scan
              (fun d => Astronomy.isCrescentVisible eph d locale) tau 30 0 tau)
    as [(k & Hk & E & Hj & Hv) | (H & _)]; [|discriminate H].
  exists k. change (Z.of_nat 30) with 30 in *.
  rewrite Z.add_0_l in E, Hv.
  split; [lia | split; [exact E | split]].
  - intros j Hj'. specialize (Hj j Hj'). rewrite Z.add_0_l in Hj. exact Hj.
  - destruct Hv as [Hv | Hv]; [left; exact Hv | right; lia].
Qed.

(** ** Mayan calendar round *)

Lemma roundOnOrBefore_some_iff
    (haabMonth haabDay tzolkinNumber tzolkinName date : Z) :
  Mayan.roundOnOrBefore haabMonth haabDay tzolkinNumber tzolkinName date
    <> None
  <-> (Mayan.Tzolkin.ordinal tzolkinNumber tzolkinName
       - Mayan.Haab.ordinal haabMonth haabDay) mod 5 = 0.
Proof.
  unfold Mayan.roundOnOrBefore. cbv zeta.
  replace (Mayan.Tzolkin.ordinal tzolkinNumber tzolkinName
           + Mayan.LongCount.EPOCH
           - (Mayan.Haab.ordinal haabMonth haabDay + Mayan.LongCount.EPOCH))
    with (Mayan.Tzolkin.ordinal tzolkinNumber tzolkinName
          - Mayan.Haab.ordinal haabMonth haabDay) by ring.
  rewrite _mod_eq by lia.
  destruct (Z.eqb_spec ((Mayan.Tzolkin.ordinal tzolkinNumber tzolkinName
                         - Mayan.Haab.ordinal haabMonth haabDay) mod 5) 0);
    split; intros; congruence.
Qed.

(** C6. On the epoch of the Long Count the Haab date is (18, 8) and the
    Tzolkin date is (4, 20), and [roundOnOrBefore 18 8 4 20] has no value
    there; [roundOnOrBefore 1 0 1 1] returns the epoch, a day whose Haab date
    is not (1, 0) and whose Tzolkin date is not (1, 1). *)
Theorem roundOnOrBefore_at_epoch :
  Mayan.Haab.fromFixed Mayan.LongCount.EPOCH = (18, 8)
  /\ Mayan.Tzolkin.fromFixed Mayan.LongCount.EPOCH = (4, 20)
  /\ Mayan.roundOnOrBefore 18 8 4 20 Mayan.LongCount.EPOCH = None
  /\ Mayan.roundOnOrBefore 1 0 1 1 Mayan.LongCount.EPOCH
     = Some Mayan.LongCount.EPOCH.
Proof. repeat split; vm_compute; reflexivity. Qed.

(** ** Hebrew years *)

(** C8. Every Hebrew year has 353, 354, 355, 383, 384 or 385 days.  The new
    year is the epoch plus the elapsed days plus the delay, and the delay is
    read off the differences of the elapsed days of consecutive years: 2
    when the year would have 356 days, 1 when the year before would have
    382, and 0 otherwise.  Both postponements occur. *)
Theorem Hebrew_year_lengths (y : Z) :
  lengthOK (Hebrew.newYear (y + 1) - Hebrew.newYear y)
  /\ Hebrew.daysInYear y = Hebrew.newYear (y + 1) - Hebrew.newYear y
  /\ Hebrew.newYear y
     = Hebrew.EPOCH + Hebrew.elapsedDays y + Hebrew.newYearDelay y
  /\ Hebrew.newYearDelay y
     = (if Hebrew.elapsedDays (y + 1) - Hebrew.elapsedDays y =? 356 then 2
        else if Hebrew.elapsedDays y - Hebrew.elapsedDays (y - 1) =? 382
             then 1 else 0)
  /\ (Hebrew.elapsedDays 5719 - Hebrew.elapsedDays 5718 = 356
      /\ Hebrew.newYearDelay 5718 = 2)
  /\ (Hebrew.elapsedDays 5766 - Hebrew.elapsedDays 5765 = 382
      /\ Hebrew.newYearDelay 5766 = 1).
Proof.
  split; [rewrite <- daysInYear_eq; apply daysInYear_lengthOK|].
  split; [apply daysInYear_eq|].
  split; [reflexivity|].
  split; [apply newYearDelay_delayOf|].
  split; split; vm_compute; reflexivity.
Qed.

(** ** Persian calendar *)

Lemma Persian_toFixed_day (eph : Ephemeris) (y m day : Z) :
  Persian.toFixed eph y m day = Persian.toFixed eph y m 1 + day - 1.
Proof.
  unfold Persian.toFixed. cbv zeta.
  generalize (Persian.newYearOnOrBefore eph
    (Persian.EPOCH + 180
     + Qfloor (Astronomy.MEAN_TROPICAL_YEAR
               * inject_Z (if 0 <? y then y - 1 else y)))).
  generalize (if 7 <? m then 30 * (m - 1) + 6 else 31 * (m - 1)).
  intros a b. ring.
Qed.

Lemma Persian_roundtrip (eph : Ephemeris) (d : Z) :
  applyDate (Persian.toFixed eph) (Persian.fromFixed eph d) = d.
Proof.
  unfold Persian.fromFixed. cbv zeta.
  match goal with
  | |- context [if ?c then _ else _] => destruct c
  end; date_of_integer; rewrite Persian_toFixed_day;
  match goal with |- ?t + _ - 1 = _ => generalize t end; intros t; ring.
Qed.

(** ** French Revolutionary calendar *)

Lemma Gregorian_toFixed_month (y m day : Z) :
  Gregorian.toFixed y m day =
  Gregorian.toFixed y 1 1 + (367 * m - 362) / 12
  + (if 2 <? m then (if Gregorian.isLeapYear y then -1 else -2) else 0)
  + day - 1.
Proof.
  rewrite Gregorian_year_start. unfold Gregorian.toFixed. ring.
Qed.

Lemma Gregorian_year_start_next (y : Z) :
  Gregorian.toFixed y 1 1 + 365 <= Gregorian.toFixed (y + 1) 1 1
  <= Gregorian.toFixed y 1 1 + 366.
Proof.
  rewrite !Gregorian_year_start. replace (y + 1 - 1) with y by ring.
  Z.div_mod_to_equations. lia.
Qed.

Lemma Gregorian_year_start_mono (y1 y2 : Z) :
  y1 <= y2 -> Gregorian.toFixed y1 1 1 <= Gregorian.toFixed y2 1 1.
Proof.
  intros H. rewrite !Gregorian_year_start. Z.div_mod_to_equations. lia.
Qed.

Lemma Gregorian_yearFromFixed_end (d : Z) :
  d < Gregorian.toFixed (Gregorian.yearFromFixed d + 1) 1 1.
Proof.
  rewrite Gregorian_year_start. unfold Gregorian.yearFromFixed.
  cbv zeta. rewrite !_mod_eq by lia.
  set (d0 := d - 1).
  set (n400 := d0 / 146097). set (d1 := d0 mod 146097).
  set (n100 := d1 / 36524). set (d2 := d1 mod 36524).
  set (n4 := d2 / 1461). set (d3 := d2 mod 1461).
  set (n1 := d3 / 365).
  assert (H0 : d0 = 146097 * n400 + d1 /\ 0 <= d1 < 146097).
  { unfold n400, d1. Z.div_mod_to_equations. lia. }
  assert (H1 : d1 = 36524 * n100 + d2 /\ 0 <= d2 < 36524).
  { unfold n100, d2. Z.div_mod_to_equations. lia. }
  assert (H2 : d2 = 1461 * n4 + d3 /\ 0 <= d3 < 1461).
  { unfold n4, d3. Z.div_mod_to_equations. lia. }
  assert (H3 : 365 * n1 <= d3 < 365 * n1 + 365).
  { unfold n1. Z.div_mod_to_equations. lia. }
  assert (Hd : d = d0 + 1) by (unfold d0; ring).
  clearbody d0 n400 d1 n100 d2 n4 d3 n1.
  destruct (Z.eqb_spec n100 4); [cbn [orb] | destruct (Z.eqb_spec n1 4); cbn [orb]].
  - Z.div_mod_to_equations. lia.
  - Z.div_mod_to_equations. lia.
  - Z.div_mod_to_equations. lia.
Qed.

Lemma Gregorian_yearFromFixed_unique (y d : Z) :
  Gregorian.toFixed y 1 1 <= d < Gregorian.toFixed (y + 1) 1 1 ->
  Gregorian.yearFromFixed d = y.
Proof.
  intros [Hlo Hhi].
  pose proof (Gregorian_yearFromFixed_start d) as H1.
  pose proof (Gregorian_yearFromFixed_end d) as H2.
  set (g := Gregorian.yearFromFixed d) in *. clearbody g.
  destruct (Z.lt_trichotomy g y) as [L | [E | L]]; [|exact E|].
  - pose proof (Gregorian_year_start_mono (g + 1) y ltac:(lia)). lia.
  - pose proof (Gregorian_year_start_mono (y + 1) g ltac:(lia)). lia.
Qed.

Lemma French_newYearOnOrBefore_eq (eph : Ephemeris) (d : Z) :
  French.newYearOnOrBefore eph d =
  French_newYearOf eph (_autumnalEquinoxOnOrBefore eph (d + 1)).
Proof.
  unfold French.newYearOnOrBefore, French_newYearOf. cbv zeta. reflexivity.
Qed.

Lemma French_newYearOf_bounds (eph : Ephemeris) (e : Q) (A B : Z) :
  (inject_Z A <= e)%Q -> (e < inject_Z B)%Q ->
  A <= French_newYearOf eph e <= B.
Proof.
  intros H1 H2. apply Qfloor_ge_Z in H1. apply Qfloor_lt_Z in H2.
  unfold French_newYearOf. destruct (Qltb _ _); lia.
Qed.

Lemma autumnal_cases (eph : Ephemeris) (x : Z) :
  septemberEquinoxInAutumn eph ->
  exists g,
    _autumnalEquinoxOnOrBefore eph x = JD.toFixed (solstice_september eph g)
    /\ Gregorian.toFixed g 1 1 <= x < Gregorian.toFixed (g + 2) 1 1.
Proof.
  intros Hs. unfold _autumnalEquinoxOnOrBefore. cbv zeta.
  pose proof (Gregorian_yearFromFixed_start x) as H1.
  pose proof (Gregorian_yearFromFixed_end x) as H2.
  set (G := Gregorian.yearFromFixed x) in *. clearbody G.
  destruct (Qltb (inject_Z x) (JD.toFixed (solstice_september eph G))).
  - exists (G - 1). split; [reflexivity|].
    replace (G - 1 + 2) with (G + 1) by ring.
    pose proof (Gregorian_year_start_mono (G - 1) G ltac:(lia)). lia.
  - exists G. split; [reflexivity|].
    pose proof (Gregorian_year_start_mono (G + 1) (G + 2) ltac:(lia)). lia.
Qed.

Lemma autumnal_after_spring (eph : Ephemeris) (g x : Z) :
  septemberEquinoxInAutumn eph ->
  Gregorian.toFixed (g + 1) 1 1 <= x < Gregorian.toFixed (g + 1) 9 1 ->
  _autumnalEquinoxOnOrBefore eph x = JD.toFixed (solstice_september eph g).
Proof.
  intros Hs [Hlo Hhi]. unfold _autumnalEquinoxOnOrBefore. cbv zeta.
  assert (E : Gregorian.yearFromFixed x = g + 1).
  { apply Gregorian_yearFromFixed_unique. split; [exact Hlo|].
    pose proof (Gregorian_toFixed_month (g + 1) 9 1) as Hm.
    change (2 <? 9) with true in Hm. cbv iota in Hm.
    change ((367 * 9 - 362) / 12) with 245 in Hm.
    pose proof (Gregorian_year_start_next (g + 1)).
    replace (g + 1 + 1) with (g + 2) in * by ring.
    destruct (Gregorian.isLeapYear (g + 1)); lia. }
  rewrite E. replace (g + 1 - 1) with g by ring.
  destruct (Hs (g + 1)) as [Hs1 _].
  assert (L : (inject_Z x < JD.toFixed (solstice_september eph (g + 1)))%Q).
  { apply Qlt_le_trans with (inject_Z (Gregorian.toFixed (g + 1) 9 1)).
    - rewrite <- Zlt_Qlt. exact Hhi.
    - exact Hs1. }
  apply Qltb_lt in L. rewrite L. reflexivity.
Qed.

Lemma Math_round_unique (x : Q) (n : Z) :
  (inject_Z n - (1 # 2) <= x)%Q -> (x < inject_Z n + (1 # 2))%Q ->
  Math_round x = n.
Proof.
  intros H1 H2. unfold Math_round. apply Qfloor_unique.
  - lra.
  - rewrite inject_Z_plus. change (inject_Z 1) with 1%Q. lra.
Qed.

Lemma French_year_number (NY g : Z) :
  -100000 <= g <= 100000 ->
  Gregorian.toFixed g 9 1 <= NY <= Gregorian.toFixed g 11 1 ->
  Math_round (inject_Z (NY - French.EPOCH) / Astronomy.MEAN_TROPICAL_YEAR)
  = g - 1792.
Proof.
  intros Hg [Hlo Hhi].
  rewrite (Gregorian_toFixed_month g 9 1) in Hlo.
  rewrite (Gregorian_toFixed_month g 11 1) in Hhi.
  change (2 <? 9) with true in Hlo. change (2 <? 11) with true in Hhi.
  cbv iota in Hlo, Hhi.
  change ((367 * 9 - 362) / 12) with 245 in Hlo.
  change ((367 * 11 - 362) / 12) with 306 in Hhi.
  rewrite Gregorian_year_start in Hlo, Hhi.
  assert (Z1 : 365242189 * (2 * (g - 1792) - 1)
               <= 2000000 * (NY - French.EPOCH)).
  { unfold French.EPOCH.
    destruct (Gregorian.isLeapYear g); Z.div_mod_to_equations; lia. }
  assert (Z2 : 2000000 * (NY - French.EPOCH)
               < 365242189 * (2 * (g - 1792) + 1)).
  { unfold French.EPOCH.
    destruct (Gregorian.isLeapYear g); Z.div_mod_to_equations; lia. }
  set (v := NY - French.EPOCH) in *. clearbody v.
  set (n := g - 1792) in *. clearbody n.
  apply Math_round_unique.
  - assert (Q1 : (inject_Z (365242189 * (2 * n - 1))
                  <= inject_Z (2000000 * v))%Q) by (rewrite <- Zle_Qle; exact Z1).
    unfold Astronomy.MEAN_TROPICAL_YEAR.
    apply Qle_shift_div_l; [reflexivity|].
    unfold Z.sub in Q1. rewrite !inject_Z_mult, inject_Z_plus, inject_Z_mult in Q1.
    change (inject_Z 365242189) with 365242189%Q in Q1.
    change (inject_Z 2000000) with 2000000%Q in Q1.
    change (inject_Z 2) with 2%Q in Q1.
    change (inject_Z (- (1))) with (- (1))%Q in Q1.
    lra.
  - assert (Q2 : (inject_Z (2000000 * v)
                  < inject_Z (365242189 * (2 * n + 1)))%Q) by (rewrite <- Zlt_Qlt; exact Z2).
    unfold Astronomy.MEAN_TROPICAL_YEAR.
    apply Qlt_shift_div_r; [reflexivity|].
    rewrite !inject_Z_mult, inject_Z_plus, inject_Z_mult in Q2.
    change (inject_Z 365242189) with 365242189%Q in Q2.
    change (inject_Z 2000000) with 2000000%Q in Q2.
    change (inject_Z 2) with 2%Q in Q2.
    change (inject_Z 1) with 1%Q in Q2.
    lra.
Qed.

Lemma year_estimate_bounds (c n : Z) :
  let x := Qfloor (inject_Z c + Astronomy.MEAN_TROPICAL_YEAR * inject_Z n) in
  1000000 * (x - c) <= 365242189 * n < 1000000 * (x - c + 1).
Proof.
  cbv zeta.
  pose proof (Qfloor_le (inject_Z c + Astronomy.MEAN_TROPICAL_YEAR * inject_Z n)) as H1.
  pose proof (Qlt_floor (inject_Z c + Astronomy.MEAN_TROPICAL_YEAR * inject_Z n)) as H2.
  set (x := Qfloor _) in *. clearbody x.
  unfold Astronomy.MEAN_TROPICAL_YEAR in H1, H2.
  rewrite inject_Z_plus in H2. change (inject_Z 1) with 1%Q in H2.
  split.
  - rewrite Zle_Qle. unfold Z.sub.
    rewrite !inject_Z_mult, inject_Z_plus, inject_Z_opp.
    change (inject_Z 1000000) with 1000000%Q.
    change (inject_Z 365242189) with 365242189%Q. lra.
  - rewrite Zlt_Qlt. unfold Z.sub.
    rewrite !inject_Z_mult, !inject_Z_plus, inject_Z_opp.
    change (inject_Z 1000000) with 1000000%Q.
    change (inject_Z 365242189) with 365242189%Q.
    change (inject_Z 1) with 1%Q. lra.
Qed.

Lemma French_toFixed_of_year (eph : Ephemeris) (g m day : Z) :
  septemberEquinoxInAutumn eph ->
  -100000 <= g <= 100000 ->
  French.toFixed eph (g - 1792 + 1) m day =
  French_newYearOf eph (JD.toFixed (solstice_september eph g))
  - 1 + 30 * (m - 1) + day.
Proof.
  intros Hs Hg. unfold French.toFixed. cbv zeta.
  replace (g - 1792 + 1 - 1) with (g - 1792) by ring.
  pose proof (year_estimate_bounds (French.EPOCH + 180) (g - 1792)) as Hx.
  cbv zeta in Hx.
  set (x := Qfloor _) in *. clearbody x.
  rewrite French_newYearOnOrBefore_eq.
  rewrite (autumnal_after_spring eph g (x + 1) Hs); [reflexivity|].
  rewrite (Gregorian_toFixed_month (g + 1) 9 1).
  change (2 <? 9) with true. cbv iota.
  change ((367 * 9 - 362) / 12) with 245.
  rewrite Gregorian_year_start. replace (g + 1 - 1) with g by ring.
  unfold French.EPOCH in Hx.
  destruct (Gregorian.isLeapYear (g + 1)); Z.div_mod_to_equations; lia.
Qed.

Lemma French_roundtrip (eph : Ephemeris) (d : Z) :
  septemberEquinoxInAutumn eph ->
  -36000000 <= d <= 36000000 ->
  applyDate (French.toFixed eph) (French.fromFixed eph d) = d.
Proof.
  intros Hs Hd. unfold French.fromFixed. cbv zeta. date_of_integer.
  rewrite French_newYearOnOrBefore_eq.
  destruct (autumnal_cases eph (d + 1) Hs) as (g & Eg & Hg1).
  rewrite Eg.
  destruct (Hs g) as [Hs1 Hs2].
  pose proof (French_newYearOf_bounds eph _ _ _ Hs1 Hs2) as HNY.
  assert (Hg : -100000 <= g <= 100000).
  { rewrite !Gregorian_year_start in Hg1. Z.div_mod_to_equations. lia. }
  rewrite (French_year_number _ g Hg HNY).
  rewrite (French_toFixed_of_year eph g _ _ Hs Hg).
  set (NY := French_newYearOf eph _). clearbody NY.
  unfold _mod. ring.
Qed.

Lemma sampleEphemeris_september : septemberEquinoxInAutumn sampleEphemeris.
Proof.
  intros g. cbn [solstice_september sampleEphemeris].
  unfold JD.toFixed, JD.fromFixed.
  rewrite (Gregorian_toFixed_month g 9 1), (Gregorian_toFixed_month g 9 22),
    (Gregorian_toFixed_month g 11 1).
  change (2 <? 9) with true. change (2 <? 11) with true. cbv iota.
  change ((367 * 9 - 362) / 12) with 245.
  change ((367 * 11 - 362) / 12) with 306.
  generalize (Gregorian.toFixed g 1 1).
  generalize (if Gregorian.isLeapYear g then -1 else -2).
  intros c s0. unfold Z.sub.
  rewrite !inject_Z_plus.
  change (inject_Z 245) with 245%Q. change (inject_Z 306) with 306%Q.
  change (inject_Z 22) with 22%Q. change (inject_Z 1) with 1%Q.
  change (inject_Z (- (1))) with (- (1))%Q.
  split; lra.
Qed.

(** ** The round-trip law *)

(** C1. For every whole fixed date [d], [toFixed] applied to the components
    of [fromFixed d] is [d], for the Egyptian, Armenian, Gregorian, Julian,
    Roman (on the five components, leap-day flag included: without the flag
    the bissextile day is taken for the day before), Coptic, Ethiopic, ISO,
    Islamic, Hebrew, Persian, Modified French and Long Count calendars; the
    year search of [Hebrew.fromFixed] ends within [Hebrew_fuel d] iterations.
    For the French calendar it holds for the dates within 36 000 000 days of
    day 0, when the September equinox that the ephemeris gives for a
    Gregorian year falls in September or October of that year. *)
Theorem roundtrip_law (eph : Ephemeris) (d : Z) :
  applyDate Egyptian.toFixed (Egyptian.fromFixed d) = d
  /\ applyDate Armenian.toFixed (Armenian.fromFixed d) = d
  /\ applyDate Gregorian.toFixed (Gregorian.fromFixed d) = d
  /\ applyDate Julian.toFixed (Julian.fromFixed d) = d
  /\ applyRoman (Roman.fromFixed d) = d
  /\ (Roman.rLeap (Roman.fromFixed (Julian.toFixed 4 2 25)) = true
      /\ Roman.toFixed 4 3 Roman.Kalends 6 true = Julian.toFixed 4 2 25
      /\ Roman.toFixed 4 3 Roman.Kalends 6 false = Julian.toFixed 4 2 24)
  /\ applyDate Coptic.toFixed (Coptic.fromFixed d) = d
  /\ applyDate Ethiopic.toFixed (Ethiopic.fromFixed d) = d
  /\ applyDate ISO.toFixed (ISO.fromFixed d) = d
  /\ applyDate Islamic.toFixed (Islamic.fromFixed d) = d
  /\ (exists a, Hebrew.fromFixed (Hebrew_fuel d) d = Some a
                /\ applyDate Hebrew.toFixed a = d)
  /\ applyDate (Persian.toFixed eph) (Persian.fromFixed eph d) = d
  /\ (septemberEquinoxInAutumn eph -> -36000000 <= d <= 36000000 ->
      applyDate (French.toFixed eph) (French.fromFixed eph d) = d)
  /\ applyDate French.Modified.toFixed (French.Modified.fromFixed d) = d
  /\ (let '(baktun, katun, tun, uinal, kin) := Mayan.LongCount.fromFixed d in
      Mayan.LongCount.toFixed baktun katun tun uinal kin) = d.
Proof.
  split; [apply Egyptian_roundtrip|].
  split; [apply Armenian_roundtrip|].
  split; [apply Gregorian_roundtrip|].
  split; [apply Julian_roundtrip|].
  split; [apply Roman_roundtrip|].
  split; [repeat split; vm_compute; reflexivity|].
  split; [apply Coptic_roundtrip|].
  split; [apply Ethiopic_roundtrip|].
  split; [apply ISO_roundtrip|].
  split; [apply Islamic_roundtrip|].
  split; [apply Hebrew_roundtrip|].
  split; [apply Persian_roundtrip|].
  split; [apply French_roundtrip|].
  split; [apply ModifiedFrench_roundtrip|].
  apply LongCount_roundtrip.
Qed.

Lemma roundtrip_law_witness :
  septemberEquinoxInAutumn sampleEphemeris
  /\ -36000000 <= 654415 <= 36000000
  /\ applyDate (French.toFixed sampleEphemeris)
       (French.fromFixed sampleEphemeris 654415) = 654415.
Proof.
  split; [exact sampleEphemeris_september|].
  split; [lia|].
  destruct (roundtrip_law sampleEphemeris 654415)
    as (_ & _ & _ & _ & _ & _ & _ & _ & _ & _ & _ & _ & H & _).
  apply H.
  - exact sampleEphemeris_september.
  - lia.
Defined.

(** * Further properties of the conversions *)

(** ** Gregorian calendar *)

(** X1. [Gregorian.yearFromFixed d] is the Gregorian year that contains day [d]:
    the year begins on or before [d] and the next year begins after [d]. *)
Theorem Gregorian_yearFromFixed_correct (d : Z) :
  Gregorian.toFixed (Gregorian.yearFromFixed d) 1 1 <= d
  /\ d < Gregorian.toFixed (Gregorian.yearFromFixed d + 1) 1 1.
Proof.
  split; [apply Gregorian_yearFromFixed_start | apply Gregorian_yearFromFixed_end].
Qed.

(** X2. By [Gregorian.toFixed] a year has 366 days exactly when
    [Gregorian.isLeapYear] holds, and 365 otherwise. *)
Theorem Gregorian_year_length (y : Z) :
  Gregorian.toFixed (y + 1) 1 1 - Gregorian.toFixed y 1 1
  = if Gregorian.isLeapYear y then 366 else 365.
Proof.
  rewrite !Gregorian_year_start. replace (y + 1 - 1) with y by ring.
  pose proof (Gregorian_leap_mod y) as HL.
  destruct (Gregorian.isLeapYear y).
  - destruct HL as [HL _]. specialize (HL eq_refl).
    Z.div_mod_to_equations. lia.
  - assert (H : ~ (y mod 400 = 0 \/ y mod 4 = 0 /\ y mod 100 <> 0)).
    { intros E. apply HL in E. discriminate. }
    clear HL. Z.div_mod_to_equations. lia.
Qed.

(** Days before month [m] in a year, by the formula of [toFixed]. *)
Lemma Gregorian_month_start (y m : Z) :
  Gregorian.toFixed y m 1 = Gregorian.toFixed y 1 1 + (367 * m - 362) / 12
  + (if 2 <? m then (if Gregorian.isLeapYear y then -1 else -2) else 0).
Proof. rewrite Gregorian_toFixed_month. ring. Qed.

Lemma Gregorian_fromFixed_fields (d : Z) :
  let y := Gregorian.yearFromFixed d in
  let prior := d - Gregorian.toFixed y 1 1 in
  let corr := if d <? Gregorian.toFixed y 3 1 then 0
              else if Gregorian.isLeapYear y then 1 else 2 in
  let m := (12 * (prior + corr) + 373) / 367 in
  Gregorian.fromFixed d = mkDate y m (d - Gregorian.toFixed y m 1 + 1) 0 0 0.
Proof.
  cbv zeta. unfold Gregorian.fromFixed. cbv zeta.
  rewrite toArray_integer. reflexivity.
Qed.

(** X3. [Gregorian.fromFixed d] is a valid date: its year is
    [yearFromFixed d], its month lies in 1..12, its day in 1..31 and before
    the first day of the next month. *)
Theorem Gregorian_fromFixed_valid (d : Z) :
  dYear (Gregorian.fromFixed d) = Gregorian.yearFromFixed d
  /\ 1 <= dMonth (Gregorian.fromFixed d) <= 12
  /\ 1 <= dDay (Gregorian.fromFixed d) <= 31
  /\ Gregorian.toFixed (dYear (Gregorian.fromFixed d))
       (dMonth (Gregorian.fromFixed d)) (dDay (Gregorian.fromFixed d))
     < Gregorian.toFixed (dYear (Gregorian.fromFixed d))
         (dMonth (Gregorian.fromFixed d) + 1) 1.
Proof.
  rewrite Gregorian_fromFixed_fields. cbn [dYear dMonth dDay].
  pose proof (Gregorian_yearFromFixed_correct d) as [Hlo Hhi].
  pose proof (Gregorian_year_length (Gregorian.yearFromFixed d)) as Hlen.
  set (y := Gregorian.yearFromFixed d) in *. clearbody y.
  rewrite (Gregorian_month_start y 3) in *.
  change (2 <? 3) with true. cbv iota.
  change ((367 * 3 - 362) / 12) with 61.
  set (s := Gregorian.toFixed y 1 1) in *.
  set (corr := if d <? _ then 0 else _).
  set (m := (12 * (d - s + corr) + 373) / 367).
  assert (Hm : 367 * m <= 12 * (d - s + corr) + 373 < 367 * m + 367).
  { unfold m. Z.div_mod_to_equations. lia. }
  assert (Hc : (d < s + 61 + (if Gregorian.isLeapYear y then -1 else -2)
                /\ corr = 0)
               \/ (s + 61 + (if Gregorian.isLeapYear y then -1 else -2) <= d
                   /\ corr = if Gregorian.isLeapYear y then 1 else 2)).
  { unfold corr.
    destruct (Z.ltb_spec d (s + 61 + (if Gregorian.isLeapYear y then -1 else -2)));
      [left | right]; split; (lia || reflexivity). }
  clearbody m corr.
  rewrite (Gregorian_toFixed_month y m (d - _ + 1)).
  rewrite (Gregorian_month_start y m), (Gregorian_month_start y (m + 1)).
  fold s.
  set (n := Gregorian.toFixed (y + 1) 1 1) in *. clearbody n. clearbody s.
  split; [reflexivity|].
  assert (Hr : 1 <= m <= 12).
  { destruct (Gregorian.isLeapYear y); lia. }
  split; [exact Hr|].
  assert (C : m = 1 \/ m = 2 \/ m = 3 \/ m = 4 \/ m = 5 \/ m = 6 \/ m = 7
              \/ m = 8 \/ m = 9 \/ m = 10 \/ m = 11 \/ m = 12) by lia.
  destruct (Gregorian.isLeapYear y);
  destruct C as [-> | [-> | [-> | [-> | [-> | [-> | [-> | [-> | [-> | [-> | [-> | ->]]]]]]]]]]];
  cbn; lia.
Qed.

Ltac eval_month_terms :=
  repeat match goal with
  | |- context [(367 * ?k - 362) / 12] =>
      let v := eval vm_compute in ((367 * k - 362) / 12) in
      change ((367 * k - 362) / 12) with v
  | H : context [(367 * ?k - 362) / 12] |- _ =>
      let v := eval vm_compute in ((367 * k - 362) / 12) in
      change ((367 * k - 362) / 12) with v in H
  | |- context [2 <? ?k] =>
      let v := eval vm_compute in (2 <? k) in
      change (2 <? k) with v
  | H : context [2 <? ?k] |- _ =>
      let v := eval vm_compute in (2 <? k) in
      change (2 <? k) with v in H
  end; cbv iota in *.

(** X4. [Gregorian.fromFixed] inverts [Gregorian.toFixed] on valid dates: a
    month in 1..12 and a day from 1 up to the last day of the month. *)
Theorem Gregorian_fromFixed_toFixed (y m day : Z) :
  1 <= m <= 12 ->
  1 <= day ->
  Gregorian.toFixed y m day < Gregorian.toFixed y (m + 1) 1 ->
  Gregorian.fromFixed (Gregorian.toFixed y m day) = mkDate y m day 0 0 0.
Proof.
  intros Hm Hd Hin.
  pose proof (Gregorian_year_length y) as Hlen.
  rewrite (Gregorian_toFixed_month y m day) in Hin.
  rewrite (Gregorian_month_start y (m + 1)) in Hin.
  assert (Hy : Gregorian.yearFromFixed (Gregorian.toFixed y m day) = y).
  { apply Gregorian_yearFromFixed_unique.
    rewrite (Gregorian_toFixed_month y m day).
    set (s := Gregorian.toFixed y 1 1) in *. clearbody s.
    set (n := Gregorian.toFixed (y + 1) 1 1) in *. clearbody n.
    assert (C : m = 1 \/ m = 2 \/ m = 3 \/ m = 4 \/ m = 5 \/ m = 6 \/ m = 7
                \/ m = 8 \/ m = 9 \/ m = 10 \/ m = 11 \/ m = 12) by lia.
    destruct (Gregorian.isLeapYear y);
    destruct C as [-> | [-> | [-> | [-> | [-> | [-> | [-> | [-> | [-> | [-> | [-> | ->]]]]]]]]]]];
    eval_month_terms; lia. }
  rewrite Gregorian_fromFixed_fields. cbv zeta. rewrite Hy.
  rewrite (Gregorian_month_start y 3).
  change (2 <? 3) with true. cbv iota.
  change ((367 * 3 - 362) / 12) with 61.
  rewrite (Gregorian_toFixed_month y m day).
  match goal with
  | |- mkDate _ ?M _ _ _ _ = _ => assert (E : M = m)
  end.
  { clear Hy Hlen. revert Hin.
    generalize (Gregorian.toFixed y 1 1). intros s Hin.
    assert (C : m = 1 \/ m = 2 \/ m = 3 \/ m = 4 \/ m = 5 \/ m = 6 \/ m = 7
                \/ m = 8 \/ m = 9 \/ m = 10 \/ m = 11 \/ m = 12) by lia.
    destruct (Gregorian.isLeapYear y);
    destruct C as [-> | [-> | [-> | [-> | [-> | [-> | [-> | [-> | [-> | [-> | [-> | ->]]]]]]]]]]];
    eval_month_terms;
    match goal with |- context [?a <? ?b] => destruct (Z.ltb_spec a b) end;
    try lia; Z.div_mod_to_equations; lia. }
  rewrite E. f_equal.
  rewrite (Gregorian_month_start y m). ring.
Qed.

Lemma Gregorian_fromFixed_toFixed_witness :
  1 <= 2 <= 12 /\ 1 <= 29 /\
  Gregorian.toFixed 2024 2 29 < Gregorian.toFixed 2024 (2 + 1) 1 /\
  Gregorian.fromFixed (Gregorian.toFixed 2024 2 29) = mkDate 2024 2 29 0 0 0.
Proof.
  split; [lia|]. split; [lia|]. split; [vm_compute; reflexivity|].
  apply (Gregorian_fromFixed_toFixed 2024 2 29).
  - lia.
  - lia.
  - vm_compute. reflexivity.
Defined.

(** ** Weekdays and Easter *)

Lemma Weekday_num_range (k : Weekday) : 0 <= Weekday_num k < 7.
Proof. destruct k; cbn; lia. Qed.

Lemma weekdayOnOrBefore_spec (d : Z) (k : Weekday) :
  getWeekday (weekdayOnOrBefore d k) = k
  /\ d - 7 < weekdayOnOrBefore d k <= d.
Proof.
  pose proof (Weekday_num_range k) as Hk.
  unfold getWeekday, weekdayOnOrBefore. rewrite !_mod_eq by lia.
  set (n := Weekday_num k) in *. clearbody n.
  split; Z.div_mod_to_equations; lia.
Qed.

(** X5. On whole days, [weekdayOnOrBefore d k] is the last day of weekday [k]
    in [d - 6, d], [weekdayAfter d k] the first one after [d], and
    [nthWeekday n k d] a day of weekday [k] in the week that [n] selects:
    within [d + 7 (n - 1), d + 7 n - 1] for positive [n], within
    [d + 7 n + 1, d + 7 (n + 1)] otherwise. *)
Theorem weekday_search (d n : Z) (k : Weekday) :
  (getWeekday (weekdayOnOrBefore d k) = k
   /\ d - 7 < weekdayOnOrBefore d k <= d)
  /\ (getWeekday (weekdayAfter d k) = k
      /\ d < weekdayAfter d k <= d + 7)
  /\ getWeekday (nthWeekday n k d) = k
  /\ (if 0 <? n
      then d + 7 * (n - 1) <= nthWeekday n k d < d + 7 * n
      else d + 7 * n < nthWeekday n k d <= d + 7 * (n + 1)).
Proof.
  pose proof (weekdayOnOrBefore_spec d k) as H1.
  pose proof (weekdayOnOrBefore_spec (d + 7) k) as H2.
  pose proof (weekdayOnOrBefore_spec (d - 1) k) as H3.
  split; [exact H1|]. unfold weekdayAfter.
  split; [split; [apply H2 | lia]|].
  unfold nthWeekday, weekdayAfter.
  set (a := weekdayOnOrBefore (d + 7) k) in *.
  set (b := weekdayOnOrBefore (d - 1) k) in *.
  clearbody a b. unfold getWeekday in *. rewrite !_mod_eq in * by lia.
  destruct (Z.ltb_spec 0 n); (split; [|lia]).
  - replace (7 * n + b) with (b + n * 7) by ring.
    rewrite Z.mod_add by lia. apply H3.
  - replace (7 * n + a) with (a + n * 7) by ring.
    rewrite Z.mod_add by lia. apply H2.
Qed.

(** X6. [Easter.Gregorian year] is a Sunday between 22 March and 25 April of
    that Gregorian year. *)
Theorem Easter_Gregorian_range (y : Z) :
  getWeekday (Easter.Gregorian y) = Sunday
  /\ Gregorian.toFixed y 3 22 <= Easter.Gregorian y <= Gregorian.toFixed y 4 25.
Proof.
  unfold Easter.Gregorian. cbv zeta.
  set (c := y / 100 + 1).
  set (shifted := _mod (14 + 11 * _mod y 19 - 3 * c / 4 + (5 + 8 * c) / 25) 30).
  pose proof (_mod_bound (14 + 11 * _mod y 19 - 3 * c / 4 + (5 + 8 * c) / 25) 30
                ltac:(lia)) as Hs.
  fold shifted in Hs. clearbody shifted.
  set (adjusted := if (shifted =? 0) || ((shifted =? 1) && (10 <? _mod y 19))
                  then shifted + 1 else shifted).
  assert (Ha : 1 <= adjusted <= 29).
  { unfold adjusted.
    destruct (Z.eqb_spec shifted 0); [cbn [orb]; lia|].
    destruct (Z.eqb_spec shifted 1); cbn [orb andb]; [|lia].
    destruct (10 <? _mod y 19); lia. }
  clearbody adjusted.
  pose proof (weekday_search (Gregorian.toFixed y 4 19 - adjusted) 0 Sunday)
    as (_ & (W1 & W2) & _).
  split; [exact W1|]. clear W1.
  set (E := weekdayAfter (Gregorian.toFixed y 4 19 - adjusted) Sunday) in *.
  clearbody E.
  rewrite (Gregorian_toFixed_month y 3 22), (Gregorian_toFixed_month y 4 25).
  rewrite (Gregorian_toFixed_month y 4 19) in W2.
  revert W2. eval_month_terms. intros W2.
  destruct (Gregorian.isLeapYear y); lia.
Qed.

(** X7. For a positive year, [Easter.Orthodox year] is a Sunday between
    22 March and 25 April of that year of the Julian calendar. *)
Theorem Easter_Orthodox_range (y : Z) :
  0 < y ->
  getWeekday (Easter.Orthodox y) = Sunday
  /\ Julian.toFixed y 3 22 <= Easter.Orthodox y <= Julian.toFixed y 4 25.
Proof.
  intros Hy. unfold Easter.Orthodox. cbv zeta.
  set (pm := 354 * y + 30 * ((7 * y + 8) / 19) + y / 4 - y / 19 - 272).
  pose proof (weekday_search pm 0 Sunday) as (_ & (W1 & W2) & _).
  split; [exact W1|].
  assert (J : forall m day, 2 < m ->
            Julian.toFixed y m day =
            365 * y - 369 + y / 4 + (367 * m - 362) / 12 + day).
  { intros m day Hm. unfold Julian.toFixed, Julian.isLeapYear, Julian.EPOCH.
    destruct (Z.ltb_spec y 0); [lia|].
    destruct (Z.leb_spec m 2); [lia|].
    destruct (Z.ltb_spec 0 y); [|lia].
    rewrite _mod_eq by lia.
    destruct (Z.eqb_spec (y mod 4) 0); Z.div_mod_to_equations; lia. }
  rewrite !J by lia.
  change ((367 * 3 - 362) / 12) with 61.
  change ((367 * 4 - 362) / 12) with 92.
  assert (P : 365 * y - 369 + y / 4 + 61 + 21 <= pm
              <= 365 * y - 369 + y / 4 + 92 + 18).
  { unfold pm.
    assert (G : exists a g, y = 19 * a + g /\ 0 <= g < 19).
    { exists (y / 19), (y mod 19). Z.div_mod_to_equations. lia. }
    destruct G as (a & g & -> & Hg).
    assert (C : g = 0 \/ g = 1 \/ g = 2 \/ g = 3 \/ g = 4 \/ g = 5 \/ g = 6
                \/ g = 7 \/ g = 8 \/ g = 9 \/ g = 10 \/ g = 11 \/ g = 12
                \/ g = 13 \/ g = 14 \/ g = 15 \/ g = 16 \/ g = 17 \/ g = 18)
      by lia.
    destruct C as [-> | [-> | [-> | [-> | [-> | [-> | [-> | [-> | [-> | [->
                  | [-> | [-> | [-> | [-> | [-> | [-> | [-> | [-> | ->]]]]]]]]]]]]]]]]]];
    Z.div_mod_to_equations; lia. }
  lia.
Qed.

Lemma Easter_Orthodox_range_witness :
  0 < 2024 /\ getWeekday (Easter.Orthodox 2024) = Sunday
  /\ Julian.toFixed 2024 3 22 <= Easter.Orthodox 2024 <= Julian.toFixed 2024 4 25.
Proof.
  split; [lia|]. apply (Easter_Orthodox_range 2024). lia.
Defined.

(** ** Julian, Islamic, Coptic, Ethiopic and Egyptian calendars *)

(** X8. [Julian.fromFixed d] never returns the year 0; its month lies in
    1..12, its day in 1..31, and its year begins on or before [d]. *)
Theorem Julian_fromFixed_valid (d : Z) :
  dYear (Julian.fromFixed d) <> 0
  /\ 1 <= dMonth (Julian.fromFixed d) <= 12
  /\ 1 <= dDay (Julian.fromFixed d) <= 31
  /\ Julian.toFixed (dYear (Julian.fromFixed d)) 1 1 <= d.
Proof.
  pose proof (Julian_fromFixed_spec d) as (H1 & H2 & H3 & H4).
  cbv zeta in *. repeat split; tauto || lia.
Qed.

(** X9. By [Islamic.toFixed] a year has 355 days exactly when
    [Islamic.isLeapYear] holds, and 354 otherwise. *)
Theorem Islamic_year_length (y : Z) :
  Islamic.toFixed (y + 1) 1 1 - Islamic.toFixed y 1 1
  = if Islamic.isLeapYear y then 355 else 354.
Proof.
  unfold Islamic.toFixed, Islamic.isLeapYear. rewrite _mod_eq by lia.
  destruct (Z.ltb_spec ((14 + 11 * y) mod 30) 11);
    Z.div_mod_to_equations; lia.
Qed.

Lemma Islamic_fromFixed_fields (d : Z) :
  let y := (30 * (d - Islamic.EPOCH) + 10646) / 10631 in
  let m := (11 * (d - Islamic.toFixed y 1 1) + 330) / 325 in
  Islamic.fromFixed d = mkDate y m (d - Islamic.toFixed y m 1 + 1) 0 0 0.
Proof.
  cbv zeta. unfold Islamic.fromFixed. cbv zeta.
  rewrite toArray_integer. reflexivity.
Qed.

(** X10. [Islamic.fromFixed d] is a valid date of the year that contains [d]:
    month in 1..12 and day in 1..30. *)
Theorem Islamic_fromFixed_valid (d : Z) :
  Islamic.toFixed (dYear (Islamic.fromFixed d)) 1 1 <= d
  /\ d < Islamic.toFixed (dYear (Islamic.fromFixed d) + 1) 1 1
  /\ 1 <= dMonth (Islamic.fromFixed d) <= 12
  /\ 1 <= dDay (Islamic.fromFixed d) <= 30.
Proof.
  rewrite Islamic_fromFixed_fields. cbn [dYear dMonth dDay].
  set (y := (30 * (d - Islamic.EPOCH) + 10646) / 10631).
  assert (Hy : Islamic.toFixed y 1 1 <= d < Islamic.toFixed (y + 1) 1 1).
  { unfold y, Islamic.toFixed, Islamic.EPOCH. Z.div_mod_to_equations. lia. }
  pose proof (Islamic_year_length y) as Hlen.
  assert (Hm : forall m, Islamic.toFixed y m 1
                         = Islamic.toFixed y 1 1 + 29 * (m - 1) + (6 * m - 1) / 11).
  { intros m. unfold Islamic.toFixed. change ((6 * 1 - 1) / 11) with 0. ring. }
  rewrite (Hm ((11 * _ + 330) / 325)).
  set (s := Islamic.toFixed y 1 1) in *. clearbody s.
  set (n := Islamic.toFixed (y + 1) 1 1) in *. clearbody n.
  set (m := (11 * (d - s) + 330) / 325).
  assert (Hmd : 325 * m <= 11 * (d - s) + 330 < 325 * m + 325).
  { unfold m. Z.div_mod_to_equations. lia. }
  clearbody m.
  assert (Hr : 1 <= m <= 12) by (destruct (Islamic.isLeapYear y); lia).
  split; [lia|]. split; [lia|]. split; [exact Hr|].
  assert (C : m = 1 \/ m = 2 \/ m = 3 \/ m = 4 \/ m = 5 \/ m = 6 \/ m = 7
              \/ m = 8 \/ m = 9 \/ m = 10 \/ m = 11 \/ m = 12) by lia.
  destruct (Islamic.isLeapYear y);
  destruct C as [-> | [-> | [-> | [-> | [-> | [-> | [-> | [-> | [-> | [-> | [-> | ->]]]]]]]]]]];
  Z.div_mod_to_equations; lia.
Qed.

(** X11. By [Coptic.toFixed] a year has 366 days exactly when
    [Coptic.isLeapYear] holds, and 365 otherwise. *)
Theorem Coptic_year_length (y : Z) :
  Coptic.toFixed (y + 1) 1 1 - Coptic.toFixed y 1 1
  = if Coptic.isLeapYear y then 366 else 365.
Proof.
  unfold Coptic.toFixed, Coptic.isLeapYear. rewrite _mod_eq by lia.
  destruct (Z.eqb_spec (y mod 4) 3); Z.div_mod_to_equations; lia.
Qed.

Lemma Coptic_fromFixed_fields (d : Z) :
  let y := (4 * (d - Coptic.EPOCH) + 1463) / 1461 in
  let m := (d - Coptic.toFixed y 1 1) / 30 + 1 in
  Coptic.fromFixed d = mkDate y m (d + 1 - Coptic.toFixed y m 1) 0 0 0.
Proof.
  cbv zeta. unfold Coptic.fromFixed. cbv zeta.
  rewrite toArray_integer. reflexivity.
Qed.

(** X12. [Coptic.fromFixed d] is a valid date of the year that contains [d]:
    month in 1..13, day in 1..30, and in month 13 at most 5, or 6 in a leap
    year. *)
Theorem Coptic_fromFixed_valid (d : Z) :
  Coptic.toFixed (dYear (Coptic.fromFixed d)) 1 1 <= d
  /\ d < Coptic.toFixed (dYear (Coptic.fromFixed d) + 1) 1 1
  /\ 1 <= dMonth (Coptic.fromFixed d) <= 13
  /\ 1 <= dDay (Coptic.fromFixed d)
     <= (if dMonth (Coptic.fromFixed d) =? 13
         then (if Coptic.isLeapYear (dYear (Coptic.fromFixed d)) then 6 else 5)
         else 30).
Proof.
  rewrite Coptic_fromFixed_fields. cbn [dYear dMonth dDay].
  set (y := (4 * (d - Coptic.EPOCH) + 1463) / 1461).
  assert (Hy : Coptic.toFixed y 1 1 <= d < Coptic.toFixed (y + 1) 1 1).
  { unfold y, Coptic.toFixed, Coptic.EPOCH. Z.div_mod_to_equations. lia. }
  pose proof (Coptic_year_length y) as Hlen.
  assert (Hm : forall m, Coptic.toFixed y m 1
                         = Coptic.toFixed y 1 1 + 30 * (m - 1)).
  { intros m. unfold Coptic.toFixed. ring. }
  rewrite (Hm (_ / 30 + 1)).
  set (s := Coptic.toFixed y 1 1) in *. clearbody s.
  set (n := Coptic.toFixed (y + 1) 1 1) in *. clearbody n.
  split; [lia|]. split; [lia|].
  destruct (Z.eqb_spec ((d - s) / 30 + 1) 13);
    destruct (Coptic.isLeapYear y);
    (split; Z.div_mod_to_equations; lia).
Qed.

(** X13. The Ethiopic date of a day is its Coptic date with the year increased
    by 276; the two years are leap years together. *)
Theorem Ethiopic_is_Coptic_shifted (d : Z) :
  dYear (Ethiopic.fromFixed d) = dYear (Coptic.fromFixed d) + 276
  /\ dMonth (Ethiopic.fromFixed d) = dMonth (Coptic.fromFixed d)
  /\ dDay (Ethiopic.fromFixed d) = dDay (Coptic.fromFixed d)
  /\ Coptic.isLeapYear (dYear (Ethiopic.fromFixed d))
     = Coptic.isLeapYear (dYear (Coptic.fromFixed d)).
Proof.
  unfold Ethiopic.fromFixed. rewrite !Coptic_fromFixed_fields.
  cbn [dYear dMonth dDay].
  unfold Coptic.isLeapYear, Coptic.toFixed, Coptic.EPOCH, Ethiopic.EPOCH.
  rewrite !_mod_eq by lia.
  set (y := (4 * (d - 103605) + 1463) / 1461).
  assert (Ey : (4 * (d + 103605 - 2796 - 103605) + 1463) / 1461 = y + 276).
  { unfold y. Z.div_mod_to_equations. lia. }
  rewrite Ey. clearbody y.
  assert (E4 : (y + 276) / 4 = y / 4 + 69) by (Z.div_mod_to_equations; lia).
  assert (Em : (y + 276) mod 4 = y mod 4) by (Z.div_mod_to_equations; lia).
  rewrite Em, E4.
  split; [reflexivity|].
  assert (Eq : (d + 103605 - 2796
                - (103605 - 1 + 365 * (y + 276 - 1) + (y / 4 + 69) + 30 * (1 - 1) + 1)) / 30
               = (d - (103605 - 1 + 365 * (y - 1) + y / 4 + 30 * (1 - 1) + 1)) / 30).
  { f_equal. ring. }
  rewrite Eq.
  split; [reflexivity|]. split; [ring | reflexivity].
Qed.

Lemma Egyptian_fromFixed_fields (d : Z) :
  let days := d - Egyptian.EPOCH in
  let y := days / 365 + 1 in
  let m := _mod days 365 / 30 + 1 in
  Egyptian.fromFixed d
  = mkDate y m (days - 365 * (y - 1) - 30 * (m - 1) + 1) 0 0 0.
Proof.
  cbv zeta. unfold Egyptian.fromFixed. cbv zeta.
  rewrite toArray_integer. reflexivity.
Qed.

(** X14. [Egyptian.fromFixed d] is a valid date: month in 1..13, day in 1..30,
    and at most 5 in month 13. *)
Theorem Egyptian_fromFixed_valid (d : Z) :
  1 <= dMonth (Egyptian.fromFixed d) <= 13
  /\ 1 <= dDay (Egyptian.fromFixed d)
     <= (if dMonth (Egyptian.fromFixed d) =? 13 then 5 else 30).
Proof.
  rewrite Egyptian_fromFixed_fields. cbn [dYear dMonth dDay].
  rewrite _mod_eq by lia.
  destruct (Z.eqb_spec ((d - Egyptian.EPOCH) mod 365 / 30 + 1) 13);
    (split; Z.div_mod_to_equations; lia).
Qed.

(** X15. [Egyptian.fromFixed] inverts [Egyptian.toFixed] on valid dates. *)
Theorem Egyptian_fromFixed_toFixed (y m day : Z) :
  1 <= m <= 13 -> 1 <= day <= (if m =? 13 then 5 else 30) ->
  Egyptian.fromFixed (Egyptian.toFixed y m day) = mkDate y m day 0 0 0.
Proof.
  intros Hm Hd. rewrite Egyptian_fromFixed_fields. cbv zeta.
  unfold Egyptian.toFixed. rewrite _mod_eq by lia.
  set (days := Egyptian.EPOCH + 365 * (y - 1) + 30 * (m - 1) + day - 1
               - Egyptian.EPOCH).
  assert (Ed : days = 365 * (y - 1) + (30 * (m - 1) + day - 1))
    by (unfold days; ring).
  assert (Hr : 0 <= 30 * (m - 1) + day - 1 < 365)
    by (destruct (Z.eqb_spec m 13); lia).
  assert (Hd' : 1 <= day <= 30) by (destruct (m =? 13); lia).
  assert (E1 : days / 365 + 1 = y).
  { rewrite Ed. Z.div_mod_to_equations. lia. }
  assert (E2 : days mod 365 / 30 + 1 = m).
  { rewrite Ed. Z.div_mod_to_equations. lia. }
  rewrite E1, E2. f_equal. rewrite Ed. ring.
Qed.

Lemma Egyptian_fromFixed_toFixed_witness :
  1 <= 13 <= 13 /\ 1 <= 5 <= (if 13 =? 13 then 5 else 30)
  /\ Egyptian.fromFixed (Egyptian.toFixed 100 13 5) = mkDate 100 13 5 0 0 0.
Proof.
  split; [lia|]. split; [cbn; lia|].
  apply (Egyptian_fromFixed_toFixed 100 13 5); cbn; lia.
Defined.

(** ** Mayan calendars *)

(** X16. The Long Count of a day has its katun, tun and kin in 0..19 and its
    uinal in 0..17. *)
Theorem LongCount_fromFixed_digits (d : Z) :
  let '(baktun, katun, tun, uinal, kin) := Mayan.LongCount.fromFixed d in
  0 <= katun < 20 /\ 0 <= tun < 20 /\ 0 <= uinal < 18 /\ 0 <= kin < 20.
Proof.
  unfold Mayan.LongCount.fromFixed. cbv zeta. rewrite !_mod_eq by lia.
  repeat split; Z.div_mod_to_equations; lia.
Qed.

(** X17. [LongCount.fromFixed] inverts [LongCount.toFixed] on digits in range. *)
Theorem LongCount_fromFixed_toFixed (baktun katun tun uinal kin : Z) :
  0 <= katun < 20 -> 0 <= tun < 20 -> 0 <= uinal < 18 -> 0 <= kin < 20 ->
  Mayan.LongCount.fromFixed (Mayan.LongCount.toFixed baktun katun tun uinal kin)
  = (baktun, katun, tun, uinal, kin).
Proof.
  intros Hk Ht Hu Hn. unfold Mayan.LongCount.fromFixed, Mayan.LongCount.toFixed.
  cbv zeta. rewrite !_mod_eq by lia.
  set (lc := Mayan.LongCount.EPOCH + baktun * 144000 + katun * 7200 + tun * 360
             + uinal * 20 + kin - Mayan.LongCount.EPOCH).
  assert (E : lc = baktun * 144000 + katun * 7200 + tun * 360 + uinal * 20 + kin)
    by (unfold lc; ring).
  clearbody lc. subst lc.
  assert (E1 : (baktun * 144000 + katun * 7200 + tun * 360 + uinal * 20 + kin)
               / 144000 = baktun) by (Z.div_mod_to_equations; lia).
  assert (E2 : (baktun * 144000 + katun * 7200 + tun * 360 + uinal * 20 + kin)
               mod 144000 = katun * 7200 + tun * 360 + uinal * 20 + kin)
    by (Z.div_mod_to_equations; lia).
  rewrite E1, E2.
  assert (E3 : (katun * 7200 + tun * 360 + uinal * 20 + kin) / 7200 = katun)
    by (Z.div_mod_to_equations; lia).
  assert (E4 : (katun * 7200 + tun * 360 + uinal * 20 + kin) mod 7200
               = tun * 360 + uinal * 20 + kin)
    by (Z.div_mod_to_equations; lia).
  rewrite E3, E4.
  assert (E5 : (tun * 360 + uinal * 20 + kin) / 360 = tun)
    by (Z.div_mod_to_equations; lia).
  assert (E6 : (tun * 360 + uinal * 20 + kin) mod 360 = uinal * 20 + kin)
    by (Z.div_mod_to_equations; lia).
  rewrite E5, E6.
  assert (E7 : (uinal * 20 + kin) / 20 = uinal)
    by (Z.div_mod_to_equations; lia).
  assert (E8 : (uinal * 20 + kin) mod 20 = kin)
    by (Z.div_mod_to_equations; lia).
  rewrite E7, E8. reflexivity.
Qed.

Lemma LongCount_fromFixed_toFixed_witness :
  0 <= 19 < 20 /\ 0 <= 19 < 20 /\ 0 <= 17 < 18 /\ 0 <= 19 < 20
  /\ Mayan.LongCount.fromFixed (Mayan.LongCount.toFixed 12 19 19 17 19)
     = (12, 19, 19, 17, 19).
Proof.
  repeat (split; [lia|]).
  apply (LongCount_fromFixed_toFixed 12 19 19 17 19); lia.
Defined.

(** X18. The Haab date of a day has its month in 1..19 and its day in 0..19,
    in 0..4 in month 19; it repeats every 365 days. *)
Theorem Haab_fromFixed_range (d : Z) :
  1 <= fst (Mayan.Haab.fromFixed d) <= 19
  /\ 0 <= snd (Mayan.Haab.fromFixed d)
     < (if fst (Mayan.Haab.fromFixed d) =? 19 then 5 else 20)
  /\ Mayan.Haab.fromFixed (d + 365) = Mayan.Haab.fromFixed d.
Proof.
  unfold Mayan.Haab.fromFixed. cbv zeta. cbn [fst snd].
  rewrite !_mod_eq by lia.
  assert (E : (d + 365 - Mayan.Haab.EPOCH) mod 365
              = (d - Mayan.Haab.EPOCH) mod 365).
  { replace (d + 365 - Mayan.Haab.EPOCH)
      with (d - Mayan.Haab.EPOCH + 1 * 365) by ring.
    apply Z.mod_add. lia. }
  rewrite E.
  set (c := (d - Mayan.Haab.EPOCH) mod 365).
  assert (Hc : 0 <= c < 365) by (apply Z.mod_pos_bound; lia).
  clearbody c.
  split; [Z.div_mod_to_equations; lia|].
  split; [|reflexivity].
  destruct (Z.eqb_spec (c / 20 + 1) 19); Z.div_mod_to_equations; lia.
Qed.

(** X19. For a valid Haab date, [Haab.onOrBefore] returns the last day on or
    before [date] that has this Haab date. *)
Theorem Haab_onOrBefore_correct (haabMonth haabDay date : Z) :
  1 <= haabMonth <= 19 ->
  0 <= haabDay < (if haabMonth =? 19 then 5 else 20) ->
  Mayan.Haab.fromFixed (Mayan.Haab.onOrBefore haabMonth haabDay date)
  = (haabMonth, haabDay)
  /\ date - 365 < Mayan.Haab.onOrBefore haabMonth haabDay date <= date.
Proof.
  intros Hm Hd.
  assert (Ho : 0 <= Mayan.Haab.ordinal haabMonth haabDay < 365).
  { unfold Mayan.Haab.ordinal. destruct (Z.eqb_spec haabMonth 19); lia. }
  assert (Hd' : 0 <= haabDay < 20) by (destruct (haabMonth =? 19); lia).
  unfold Mayan.Haab.onOrBefore, Mayan.Haab.fromFixed. cbv zeta.
  rewrite !_mod_eq by lia.
  set (o := Mayan.Haab.ordinal haabMonth haabDay) in *.
  set (r := date - (date - Mayan.Haab.EPOCH - o) mod 365).
  assert (Hr : date - 365 < r <= date).
  { unfold r. Z.div_mod_to_equations. lia. }
  assert (Ec : (r - Mayan.Haab.EPOCH) mod 365 = o).
  { unfold r. clearbody o. Z.div_mod_to_equations. lia. }
  rewrite Ec. split; [|exact Hr].
  unfold o, Mayan.Haab.ordinal. f_equal; Z.div_mod_to_equations; lia.
Qed.

Lemma Haab_onOrBefore_correct_witness :
  1 <= 19 <= 19 /\ 0 <= 4 < (if 19 =? 19 then 5 else 20)
  /\ Mayan.Haab.fromFixed (Mayan.Haab.onOrBefore 19 4 0) = (19, 4)
  /\ 0 - 365 < Mayan.Haab.onOrBefore 19 4 0 <= 0.
Proof.
  split; [lia|]. split; [cbn; lia|].
  apply (Haab_onOrBefore_correct 19 4 0); cbn; lia.
Defined.

(** X20. The Tzolkin date of a day has its number in 1..13 and its name in
    1..20; it repeats every 260 days. *)
Theorem Tzolkin_fromFixed_range (d : Z) :
  1 <= fst (Mayan.Tzolkin.fromFixed d) <= 13
  /\ 1 <= snd (Mayan.Tzolkin.fromFixed d) <= 20
  /\ Mayan.Tzolkin.fromFixed (d + 260) = Mayan.Tzolkin.fromFixed d.
Proof.
  unfold Mayan.Tzolkin.fromFixed. cbv zeta. cbn [fst snd].
  split; [apply _amod_bound; lia|].
  split; [apply _amod_bound; lia|].
  unfold _amod, _mod.
  f_equal; f_equal; Z.div_mod_to_equations; lia.
Qed.

(** X21. For a valid Tzolkin date, [Tzolkin.onOrBefore] returns the last day on
    or before [date] that has this Tzolkin date. *)
Theorem Tzolkin_onOrBefore_correct (tzolkinNumber tzolkinName date : Z) :
  1 <= tzolkinNumber <= 13 ->
  1 <= tzolkinName <= 20 ->
  Mayan.Tzolkin.fromFixed
    (Mayan.Tzolkin.onOrBefore tzolkinNumber tzolkinName date)
  = (tzolkinNumber, tzolkinName)
  /\ date - 260
     < Mayan.Tzolkin.onOrBefore tzolkinNumber tzolkinName date <= date.
Proof.
  intros Hn Hm.
  unfold Mayan.Tzolkin.onOrBefore, Mayan.Tzolkin.fromFixed. cbv zeta.
  unfold Mayan.Tzolkin.ordinal. unfold _amod. rewrite !_mod_eq by lia.
  set (o := (tzolkinNumber - 1 + 39 * (tzolkinNumber - tzolkinName)) mod 260).
  set (r := date - (date - Mayan.Tzolkin.EPOCH - o) mod 260).
  assert (Hr : date - 260 < r <= date).
  { unfold r. Z.div_mod_to_equations. lia. }
  split; [|exact Hr].
  assert (Ec : exists q, r - Mayan.Tzolkin.EPOCH + 1
                = tzolkinNumber + 39 * (tzolkinNumber - tzolkinName) + 260 * q).
  { unfold r, o.
    exists ((date - Mayan.Tzolkin.EPOCH - o) / 260
            - (tzolkinNumber - 1 + 39 * (tzolkinNumber - tzolkinName)) / 260).
    unfold o. Z.div_mod_to_equations. lia. }
  destruct Ec as [q Ec]. rewrite Ec. clearbody r o.
  f_equal; Z.div_mod_to_equations; lia.
Qed.

Lemma Tzolkin_onOrBefore_correct_witness :
  1 <= 13 <= 13 /\ 1 <= 20 <= 20
  /\ Mayan.Tzolkin.fromFixed (Mayan.Tzolkin.onOrBefore 13 20 0) = (13, 20)
  /\ 0 - 260 < Mayan.Tzolkin.onOrBefore 13 20 0 <= 0.
Proof.
  split; [lia|]. split; [lia|].
  apply (Tzolkin_onOrBefore_correct 13 20 0); lia.
Defined.

(** X22. What [roundOnOrBefore] returns: no value exactly when the difference
    of the two ordinals is not a multiple of 5; otherwise the last day [r] on
    or before [date], within 18980 days, that is congruent to the Long Count
    epoch plus the Haab ordinal modulo 365 and to the Long Count epoch plus
    the Tzolkin ordinal modulo 260. *)
Theorem roundOnOrBefore_result
    (haabMonth haabDay tzolkinNumber tzolkinName date : Z) :
  match Mayan.roundOnOrBefore haabMonth haabDay tzolkinNumber tzolkinName date
  with
  | Some r =>
      (Mayan.Tzolkin.ordinal tzolkinNumber tzolkinName
       - Mayan.Haab.ordinal haabMonth haabDay) mod 5 = 0
      /\ date - 18980 < r <= date
      /\ (r - (Mayan.LongCount.EPOCH + Mayan.Haab.ordinal haabMonth haabDay))
         mod 365 = 0
      /\ (r - (Mayan.LongCount.EPOCH
               + Mayan.Tzolkin.ordinal tzolkinNumber tzolkinName))
         mod 260 = 0
  | None =>
      (Mayan.Tzolkin.ordinal tzolkinNumber tzolkinName
       - Mayan.Haab.ordinal haabMonth haabDay) mod 5 <> 0
  end.
Proof.
  unfold Mayan.roundOnOrBefore. cbv zeta.
  set (h := Mayan.Haab.ordinal haabMonth haabDay).
  set (t := Mayan.Tzolkin.ordinal tzolkinNumber tzolkinName).
  clearbody h t.
  replace (t + Mayan.LongCount.EPOCH - (h + Mayan.LongCount.EPOCH))
    with (t - h) by ring.
  rewrite !_mod_eq by lia.
  destruct (Z.eqb_spec ((t - h) mod 5) 0) as [E | E]; [|exact E].
  split; [exact E|].
  set (e := Mayan.LongCount.EPOCH). clearbody e.
  repeat split; Z.div_mod_to_equations; lia.
Qed.

(** ** Hebrew calendar *)

Lemma elapsedOfDay_range (d : Z) : d <= elapsedOfDay d <= d + 1.
Proof. unfold elapsedOfDay. destruct (_ <? 3); lia. Qed.

Lemma delayOf_range (a b c : Z) : 0 <= delayOf a b c <= 2.
Proof.
  unfold delayOf. destruct (c - b =? 356); [lia|].
  destruct (b - a =? 382); lia.
Qed.

Lemma Hebrew_isLeapYear_months (y : Z) :
  monthsElapsed (y + 1) - monthsElapsed y
  = if Hebrew.isLeapYear y then 13 else 12.
Proof.
  unfold monthsElapsed, Hebrew.isLeapYear. rewrite _mod_eq by lia.
  destruct (Z.ltb_spec ((7 * y + 1) mod 19) 7); Z.div_mod_to_equations; lia.
Qed.

Lemma newYear_months (y : Z) :
  Hebrew.newYear y
  = Hebrew.EPOCH + elapsedOfDay (dayOfMonths (monthsElapsed y))
    + delayOf (elapsedOfDay (dayOfMonths (monthsElapsed (y - 1))))
        (elapsedOfDay (dayOfMonths (monthsElapsed y)))
        (elapsedOfDay (dayOfMonths (monthsElapsed (y + 1)))).
Proof.
  unfold Hebrew.newYear. rewrite newYearDelay_delayOf, !elapsedDays_months.
  reflexivity.
Qed.

(** X23. A Hebrew leap year ([Hebrew.isLeapYear]) has 383, 384 or 385 days, a
    common year 353, 354 or 355. *)
Theorem Hebrew_leap_year_length (y : Z) :
  if Hebrew.isLeapYear y
  then 383 <= Hebrew.daysInYear y <= 385
  else 353 <= Hebrew.daysInYear y <= 355.
Proof.
  pose proof (daysInYear_lengthOK y) as HL.
  pose proof (Hebrew_isLeapYear_months y) as Hm.
  rewrite daysInYear_eq in *. rewrite !newYear_months in *.
  replace (y + 1 - 1) with y in * by ring.
  pose proof (elapsedOfDay_range (dayOfMonths (monthsElapsed y))) as R1.
  pose proof (elapsedOfDay_range (dayOfMonths (monthsElapsed (y + 1)))) as R2.
  pose proof (dayOfMonths_floor (monthsElapsed y)) as F1.
  pose proof (dayOfMonths_floor (monthsElapsed (y + 1))) as F2.
  match type of HL with
  | lengthOK (_ + _ + ?d2 - (_ + _ + ?d1)) =>
      pose proof (delayOf_range
        (elapsedOfDay (dayOfMonths (monthsElapsed y)))
        (elapsedOfDay (dayOfMonths (monthsElapsed (y + 1))))
        (elapsedOfDay (dayOfMonths (monthsElapsed (y + 1 + 1))))) as Q2;
      pose proof (delayOf_range
        (elapsedOfDay (dayOfMonths (monthsElapsed (y - 1))))
        (elapsedOfDay (dayOfMonths (monthsElapsed y)))
        (elapsedOfDay (dayOfMonths (monthsElapsed (y + 1))))) as Q1
  end.
  set (d2 := delayOf _ _ (elapsedOfDay (dayOfMonths (monthsElapsed (y + 1 + 1))))) in *.
  set (d1 := delayOf (elapsedOfDay (dayOfMonths (monthsElapsed (y - 1)))) _ _) in *.
  set (e1 := elapsedOfDay (dayOfMonths (monthsElapsed y))) in *.
  set (e2 := elapsedOfDay (dayOfMonths (monthsElapsed (y + 1)))) in *.
  set (D1 := dayOfMonths (monthsElapsed y)) in *.
  set (D2 := dayOfMonths (monthsElapsed (y + 1))) in *.
  set (m1 := monthsElapsed y) in *. set (m2 := monthsElapsed (y + 1)) in *.
  clearbody d2 d1 e1 e2 D1 D2 m1 m2.
  unfold lengthOK in HL.
  destruct (Hebrew.isLeapYear y); lia.
Qed.

Lemma lastDayOfMonth_fixed (y m : Z) :
  m = 1 \/ m = 3 \/ m = 5 \/ m = 7 \/ m = 11 ->
  Hebrew.lastDayOfMonth y m = 30.
Proof. intros [-> | [-> | [-> | [-> | ->]]]]; reflexivity. Qed.

Lemma lastDayOfMonth_short (y m : Z) :
  m = 2 \/ m = 4 \/ m = 6 \/ m = 10 \/ m = 13 ->
  Hebrew.lastDayOfMonth y m = 29.
Proof. intros [-> | [-> | [-> | [-> | ->]]]]; reflexivity. Qed.

Lemma lastDayOfMonth_8 (y : Z) :
  Hebrew.lastDayOfMonth y 8 = if Hebrew.isLongMarheshvan y then 30 else 29.
Proof.
  unfold Hebrew.lastDayOfMonth. cbn [existsb]. change (8 =? 12) with false.
  change (8 =? 8) with true. change (8 =? 9) with false.
  change (8 =? 2) with false. change (8 =? 4) with false.
  change (8 =? 6) with false. change (8 =? 10) with false.
  change (8 =? 13) with false. cbn [orb andb].
  destruct (Hebrew.isLongMarheshvan y); reflexivity.
Qed.

Lemma lastDayOfMonth_9 (y : Z) :
  Hebrew.lastDayOfMonth y 9 = if Hebrew.isShortKislev y then 29 else 30.
Proof.
  unfold Hebrew.lastDayOfMonth. cbn [existsb]. change (9 =? 12) with false.
  change (9 =? 8) with false. change (9 =? 9) with true.
  change (9 =? 2) with false. change (9 =? 4) with false.
  change (9 =? 6) with false. change (9 =? 10) with false.
  change (9 =? 13) with false. cbn [orb andb].
  destruct (Hebrew.isShortKislev y); reflexivity.
Qed.

Lemma lastDayOfMonth_12 (y : Z) :
  Hebrew.lastDayOfMonth y 12 = if Hebrew.isLeapYear y then 30 else 29.
Proof.
  unfold Hebrew.lastDayOfMonth. cbn [existsb]. change (12 =? 12) with true.
  change (12 =? 8) with false. change (12 =? 9) with false.
  change (12 =? 2) with false. change (12 =? 4) with false.
  change (12 =? 6) with false. change (12 =? 10) with false.
  change (12 =? 13) with false. cbn [orb andb].
  destruct (Hebrew.isLeapYear y); reflexivity.
Qed.

(** X25. The months of a Hebrew year fill the year: 1 Tishri is the new year,
    and the day after the last day of Elul (month 6) is the next new year. *)
Theorem Hebrew_months_fill_year (y : Z) :
  Hebrew.toFixed y 7 1 = Hebrew.newYear y
  /\ Hebrew.toFixed y 6 (Hebrew.lastDayOfMonth y 6) + 1 = Hebrew.newYear (y + 1).
Proof.
  split.
  - unfold Hebrew.toFixed. cbv zeta. change (7 <? Hebrew.TISHRI) with false.
    cbv iota. change (Z.to_nat (7 - Hebrew.TISHRI)) with 0%nat.
    cbn [sumLoop]. ring.
  - pose proof (Hebrew_leap_year_length y) as HL.
    rewrite daysInYear_eq in HL.
    assert (H8 : Hebrew.isLongMarheshvan y
                 = ((Hebrew.newYear (y + 1) - Hebrew.newYear y =? 355)
                    || (Hebrew.newYear (y + 1) - Hebrew.newYear y =? 385)))
      by reflexivity.
    assert (H9 : Hebrew.isShortKislev y
                 = ((Hebrew.newYear (y + 1) - Hebrew.newYear y =? 353)
                    || (Hebrew.newYear (y + 1) - Hebrew.newYear y =? 383)))
      by reflexivity.
    unfold Hebrew.toFixed. cbv zeta. change (6 <? Hebrew.TISHRI) with true.
    cbv iota. change (Z.to_nat (6 - 1)) with 5%nat.
    destruct (Hebrew.isLeapYear y) eqn:Leap.
    + change (Z.to_nat (13 + 1 - Hebrew.TISHRI)) with 7%nat.
      cbn [sumLoop]. change Hebrew.TISHRI with 7.
      change (1 + 1) with 2. change (2 + 1) with 3. change (3 + 1) with 4.
      change (4 + 1) with 5. change (7 + 1) with 8. change (8 + 1) with 9.
      change (9 + 1) with 10. change (10 + 1) with 11.
      change (11 + 1) with 12. change (12 + 1) with 13.
      rewrite lastDayOfMonth_8, lastDayOfMonth_9, lastDayOfMonth_12, Leap.
      rewrite !(lastDayOfMonth_fixed y 1), !(lastDayOfMonth_fixed y 3),
        !(lastDayOfMonth_fixed y 5), !(lastDayOfMonth_fixed y 7),
        !(lastDayOfMonth_fixed y 11) by tauto.
      rewrite !(lastDayOfMonth_short y 2), !(lastDayOfMonth_short y 4),
        !(lastDayOfMonth_short y 6), !(lastDayOfMonth_short y 10),
        !(lastDayOfMonth_short y 13) by tauto.
      rewrite H8, H9.
      set (a := Hebrew.newYear y) in *. set (b := Hebrew.newYear (y + 1)) in *.
      clearbody a b.
      destruct (Z.eqb_spec (b - a) 355), (Z.eqb_spec (b - a) 385),
        (Z.eqb_spec (b - a) 353), (Z.eqb_spec (b - a) 383); cbn [orb]; lia.
    + change (Z.to_nat (12 + 1 - Hebrew.TISHRI)) with 6%nat.
      cbn [sumLoop]. change Hebrew.TISHRI with 7.
      change (1 + 1) with 2. change (2 + 1) with 3. change (3 + 1) with 4.
      change (4 + 1) with 5. change (7 + 1) with 8. change (8 + 1) with 9.
      change (9 + 1) with 10. change (10 + 1) with 11.
      change (11 + 1) with 12.
      rewrite lastDayOfMonth_8, lastDayOfMonth_9, lastDayOfMonth_12, Leap.
      rewrite !(lastDayOfMonth_fixed y 1), !(lastDayOfMonth_fixed y 3),
        !(lastDayOfMonth_fixed y 5), !(lastDayOfMonth_fixed y 7),
        !(lastDayOfMonth_fixed y 11) by tauto.
      rewrite !(lastDayOfMonth_short y 2), !(lastDayOfMonth_short y 4),
        !(lastDayOfMonth_short y 6), !(lastDayOfMonth_short y 10) by tauto.
      rewrite H8, H9.
      set (a := Hebrew.newYear y) in *. set (b := Hebrew.newYear (y + 1)) in *.
      clearbody a b.
      destruct (Z.eqb_spec (b - a) 355), (Z.eqb_spec (b - a) 385),
        (Z.eqb_spec (b - a) 353), (Z.eqb_spec (b - a) 383); cbn [orb]; lia.
Qed.

Lemma yearLoop_result (fuel : nat) :
  forall year d y,
    Hebrew.newYear (year - 1) <= d ->
    Hebrew.yearLoop fuel year d = Some y ->
    Hebrew.newYear y <= d < Hebrew.newYear (y + 1).
Proof.
  induction fuel as [|fuel IH]; intros year d y Hinv H.
  - discriminate H.
  - cbn [Hebrew.yearLoop] in H.
    destruct (Z.ltb_spec d (Hebrew.newYear year)) as [L | L].
    + injection H as <-. replace (year - 1 + 1) with year by ring. lia.
    + apply (IH (year + 1) d y); [|exact H].
      replace (year + 1 - 1) with year by ring. exact L.
Qed.

Lemma Hebrew_approx_low (d : Z) :
  Hebrew.newYear (((d - Hebrew.EPOCH) * 98496) / 35975351 + 1 - 1 - 1) <= d.
Proof.
  set (a := ((d - Hebrew.EPOCH) * 98496) / 35975351 + 1 - 1 - 1).
  assert (Ha : 35975351 * (a + 1) <= (d - Hebrew.EPOCH) * 98496).
  { unfold a. Z.div_mod_to_equations. lia. }
  clearbody a.
  rewrite newYear_months.
  pose proof (elapsedOfDay_range (dayOfMonths (monthsElapsed a))) as R.
  pose proof (dayOfMonths_floor (monthsElapsed a)) as F.
  pose proof (delayOf_range
                (elapsedOfDay (dayOfMonths (monthsElapsed (a - 1))))
                (elapsedOfDay (dayOfMonths (monthsElapsed a)))
                (elapsedOfDay (dayOfMonths (monthsElapsed (a + 1))))) as Q.
  set (dl := delayOf _ _ _) in *. clearbody dl.
  set (e := elapsedOfDay (dayOfMonths (monthsElapsed a))) in *. clearbody e.
  set (D := dayOfMonths (monthsElapsed a)) in *. clearbody D.
  assert (M : 19 * monthsElapsed a <= 235 * a - 234).
  { unfold monthsElapsed. Z.div_mod_to_equations. lia. }
  set (m := monthsElapsed a) in *. clearbody m.
  lia.
Qed.

(** X24. The year search of [Hebrew.fromFixed] ends and returns the Hebrew
    year that contains [d]: its new year is on or before [d] and the next
    new year is after [d]. *)
Theorem Hebrew_fromFixed_year (d : Z) :
  exists a,
    Hebrew.fromFixed (Hebrew_fuel d) d = Some a
    /\ Hebrew.newYear (dYear a) <= d
    /\ d < Hebrew.newYear (dYear a + 1).
Proof.
  destruct (Hebrew_roundtrip d) as (a & Ha & _).
  exists a. split; [exact Ha|].
  unfold Hebrew.fromFixed in Ha.
  destruct (Hebrew.yearLoop (Hebrew_fuel d) _ d) as [year|] eqn:Hy;
    [|discriminate Ha].
  rewrite toArray_integer in Ha. injection Ha as <-. cbn [dYear].
  apply (yearLoop_result _ _ _ _ (Hebrew_approx_low d) Hy).
Qed.

(** ** ISO weeks, time frames and the Modified French calendar *)

Lemma ISO_year_start_bounds (y : Z) :
  Gregorian.toFixed y 1 1 - 3 <= ISO.toFixed y 1 1 <= Gregorian.toFixed y 1 1 + 3
  /\ (ISO.toFixed y 1 1) mod 7 = 1.
Proof.
  rewrite ISO_year_start, <- (Gregorian_dec28 y).
  unfold weekdayOnOrBefore. rewrite _mod_eq by lia.
  change (Weekday_num Sunday) with 0.
  generalize (Gregorian.toFixed (y - 1) 12 28). intros g.
  split; Z.div_mod_to_equations; lia.
Qed.

Lemma ISO_fromFixed_fields (d : Z) :
  let approx := Gregorian.yearFromFixed (d - 3) in
  let year := if ISO.toFixed (approx + 1) 1 1 <=? d then approx + 1 else approx in
  ISO.fromFixed d
  = mkDate year ((d - ISO.toFixed year 1 1) / 7 + 1) (_amod d 7) 0 0 0.
Proof.
  cbv zeta. unfold ISO.fromFixed. cbv zeta. rewrite toArray_integer.
  reflexivity.
Qed.

(** X26. [ISO.fromFixed d] is a valid ISO date of the ISO year that contains
    [d]: week in 1..53, day in 1..7, and the day is the weekday of [d], with 7
    for Sunday. *)
Theorem ISO_fromFixed_valid (d : Z) :
  ISO.toFixed (dYear (ISO.fromFixed d)) 1 1 <= d
  /\ d < ISO.toFixed (dYear (ISO.fromFixed d) + 1) 1 1
  /\ 1 <= dMonth (ISO.fromFixed d) <= 53
  /\ 1 <= dDay (ISO.fromFixed d) <= 7
  /\ (dDay (ISO.fromFixed d)) mod 7 = getWeekday d.
Proof.
  rewrite ISO_fromFixed_fields. cbn [dYear dMonth dDay].
  pose proof (ISO_year_le d) as Hlo.
  set (approx := Gregorian.yearFromFixed (d - 3)) in *.
  pose proof (Gregorian_yearFromFixed_end (d - 3)) as Hend. fold approx in Hend.
  pose proof (ISO_year_start_bounds (approx + 1)) as [B1 M1].
  pose proof (ISO_year_start_bounds (approx + 2)) as [B2 M2].
  pose proof (ISO_year_start_bounds approx) as [B0 M0].
  pose proof (Gregorian_year_start_next (approx + 1)) as N1.
  pose proof (Gregorian_year_start_next approx) as N0.
  replace (approx + 1 + 1) with (approx + 2) in * by ring.
  set (i0 := ISO.toFixed approx 1 1) in *.
  set (i1 := ISO.toFixed (approx + 1) 1 1) in *.
  set (i2 := ISO.toFixed (approx + 2) 1 1) in *.
  set (g0 := Gregorian.toFixed approx 1 1) in *.
  set (g1 := Gregorian.toFixed (approx + 1) 1 1) in *.
  set (g2 := Gregorian.toFixed (approx + 2) 1 1) in *.
  assert (Hhi : d < ISO.toFixed ((if i1 <=? d then approx + 1 else approx) + 1)
                      1 1).
  { destruct (Z.leb_spec i1 d).
    - replace (approx + 1 + 1) with (approx + 2) by ring. fold i2. lia.
    - fold i1. lia. }
  assert (Hlen : ISO.toFixed ((if i1 <=? d then approx + 1 else approx) + 1) 1 1
                 - ISO.toFixed (if i1 <=? d then approx + 1 else approx) 1 1
                 <= 371).
  { destruct (Z.leb_spec i1 d).
    - replace (approx + 1 + 1) with (approx + 2) by ring. fold i1 i2.
      clearbody i0 i1 i2 g0 g1 g2. Z.div_mod_to_equations. lia.
    - fold i1 i0.
      clearbody i0 i1 i2 g0 g1 g2. Z.div_mod_to_equations. lia. }
  set (year := if i1 <=? d then approx + 1 else approx) in *.
  clearbody year.
  set (s := ISO.toFixed year 1 1) in *. set (n := ISO.toFixed (year + 1) 1 1) in *.
  clearbody s n.
  split; [exact Hlo|]. split; [exact Hhi|].
  split; [Z.div_mod_to_equations; lia|].
  pose proof (_amod_bound d 7 ltac:(lia)) as Ha.
  split; [exact Ha|].
  unfold getWeekday. rewrite _mod_eq by lia. apply _amod_congr. lia.
Qed.

(** X28. By [French.Modified.toFixed] a year has 366 days exactly when
    [French.Modified.isLeapYear] holds, and 365 otherwise. *)
Theorem ModifiedFrench_year_length (y : Z) :
  French.Modified.toFixed (y + 1) 1 1 - French.Modified.toFixed y 1 1
  = if French.Modified.isLeapYear y then 366 else 365.
Proof.
  unfold French.Modified.toFixed, French.Modified.isLeapYear.
  replace (y + 1 - 1) with y by ring.
  cbn [existsb]. rewrite !_mod_eq by lia.
  destruct (Z.eqb_spec (y mod 4) 0), (Z.eqb_spec (y mod 400) 100),
    (Z.eqb_spec (y mod 400) 200), (Z.eqb_spec (y mod 400) 300),
    (Z.eqb_spec (y mod 4000) 0); cbn [orb andb negb];
    Z.div_mod_to_equations; lia.
Qed.

Lemma ModifiedFrench_fromFixed_fields (d : Z) :
  let approx := (4000 * (d - French.EPOCH + 2)) / 1460969 + 1 in
  let y := if d <? French.Modified.toFixed approx 1 1 then approx - 1
           else approx in
  let m := (d - French.Modified.toFixed y 1 1) / 30 + 1 in
  French.Modified.fromFixed d
  = mkDate y m (d - French.Modified.toFixed y m 1 + 1) 0 0 0.
Proof.
  cbv zeta. unfold French.Modified.fromFixed. cbv zeta.
  rewrite toArray_integer. reflexivity.
Qed.

(** X29. [French.Modified.fromFixed d] is a valid date of the year that
    contains [d]: month in 1..13, day in 1..30, and in month 13 at most 5, or
    6 in a leap year. *)
Theorem ModifiedFrench_fromFixed_valid (d : Z) :
  French.Modified.toFixed (dYear (French.Modified.fromFixed d)) 1 1 <= d
  /\ d < French.Modified.toFixed (dYear (French.Modified.fromFixed d) + 1) 1 1
  /\ 1 <= dMonth (French.Modified.fromFixed d) <= 13
  /\ 1 <= dDay (French.Modified.fromFixed d)
     <= (if dMonth (French.Modified.fromFixed d) =? 13
         then (if French.Modified.isLeapYear
                    (dYear (French.Modified.fromFixed d)) then 6 else 5)
         else 30).
Proof.
  rewrite ModifiedFrench_fromFixed_fields. cbn [dYear dMonth dDay].
  set (approx := (4000 * (d - French.EPOCH + 2)) / 1460969 + 1).
  assert (Ha : French.Modified.toFixed (approx - 1) 1 1 <= d
               /\ d < French.Modified.toFixed (approx + 1) 1 1).
  { unfold approx, French.Modified.toFixed, French.EPOCH.
    split; Z.div_mod_to_equations; lia. }
  set (y := if d <? French.Modified.toFixed approx 1 1 then approx - 1
            else approx).
  assert (Hy : French.Modified.toFixed y 1 1 <= d
               < French.Modified.toFixed (y + 1) 1 1).
  { unfold y. destruct (Z.ltb_spec d (French.Modified.toFixed approx 1 1)).
    - replace (approx - 1 + 1) with approx by ring. lia.
    - lia. }
  clearbody y. clear Ha.
  pose proof (ModifiedFrench_year_length y) as Hlen.
  assert (Hm : forall m, French.Modified.toFixed y m 1
                         = French.Modified.toFixed y 1 1 + 30 * (m - 1)).
  { intros m. unfold French.Modified.toFixed. ring. }
  rewrite (Hm (_ / 30 + 1)).
  set (s := French.Modified.toFixed y 1 1) in *. clearbody s.
  set (n := French.Modified.toFixed (y + 1) 1 1) in *. clearbody n.
  split; [lia|]. split; [lia|].
  destruct (Z.eqb_spec ((d - s) / 30 + 1) 13);
    destruct (French.Modified.isLeapYear y);
    (split; Z.div_mod_to_equations; lia).
Qed.

(** X30. By [Julian.toFixed] a year other than 0 has 366 days exactly when
    [Julian.isLeapYear] holds, and 365 otherwise; the year after -1 is 1. *)
Theorem Julian_year_length (y : Z) :
  y <> 0 ->
  Julian.toFixed (if y =? -1 then 1 else y + 1) 1 1 - Julian.toFixed y 1 1
  = if Julian.isLeapYear y then 366 else 365.
Proof.
  intros Hy. rewrite !Julian_year_start. cbv zeta.
  pose proof (Julian_leap_mod y Hy) as HL.
  destruct (Z.eqb_spec y (-1)) as [-> | Hn].
  - vm_compute. reflexivity.
  - destruct (Z.ltb_spec (y + 1) 0), (Z.ltb_spec y 0); try lia;
    destruct (Julian.isLeapYear y);
    try (destruct HL as [HL _]; specialize (HL eq_refl));
    try (assert (HN : ((if y <? 0 then y else y - 1) + 1) mod 4 <> 0)
           by (intros E; apply HL in E; discriminate); clear HL);
    repeat match goal with
    | H : context [?a <? ?b] |- _ => destruct (Z.ltb_spec a b); try lia
    end;
    Z.div_mod_to_equations; lia.
Qed.

Lemma Julian_year_length_witness :
  -1 <> 0
  /\ Julian.toFixed (if -1 =? -1 then 1 else -1 + 1) 1 1 - Julian.toFixed (-1) 1 1
     = if Julian.isLeapYear (-1) then 366 else 365.
Proof.
  split; [lia|]. apply (Julian_year_length (-1)). lia.
Defined.
